(** * scripts/scrape_songkick.py: the Songkick event scraper

    A shallow embedding of [scrape_songkick_events] and of the module's
    [__main__] block.

    - Python floats are IEEE binary64 numbers: Rocq's primitive floats.
    - The values [json.loads] builds are the inductive type [pyval].
    - The libraries the script calls (the [float] and [round] builtins, float
      formatting, [json], [bs4], [geopy]) are the fields of the class
      [Libs]; the script is modelled once, for every implementation of them.
    - What the browser and the event loop do at each [await] is read from an
      environment [env]; the calls the script issues and the lines it prints
      on standard output are recorded, in order, in a trace.
    - Text written to standard error is not modelled. *)

From Stdlib Require Import Floats ZArith List String Ascii Bool Arith Lia
  DecimalString.
Import ListNotations.
Open Scope string_scope.
Set Warnings "-inexact-float,-register-all".

(** ** Python values *)

Inductive pyval : Type :=
| PNone
| PBool (b : bool)
| PInt (n : Z)
| PFloat (x : float)
| PStr (s : string)
| PList (items : list pyval)
| PDict (entries : list (string * pyval)).

Definition is_None (v : pyval) : bool :=
  match v with PNone => true | _ => false end.

(** [d.get(key, default)]: [None] stands for the [AttributeError] raised
    when [d] is not a dict. *)
Fixpoint lookup (key : string) (entries : list (string * pyval)) : option pyval :=
  match entries with
  | [] => None
  | (k, v) :: rest => if String.eqb k key then Some v else lookup key rest
  end.

Definition py_get (d : pyval) (key : string) (default : pyval) : option pyval :=
  match d with
  | PDict entries =>
      Some (match lookup key entries with Some v => v | None => default end)
  | _ => None
  end.

Definition keys (v : pyval) : list string :=
  match v with PDict entries => map fst entries | _ => [] end.

(** ** Floats *)

(** [bool(x)] for a float: false exactly for [0.0] and [-0.0]. *)
Definition truthy (x : float) : bool := negb (PrimFloat.eqb x 0).

(** [a > b] *)
Definition gt (a b : float) : bool := PrimFloat.ltb b a.

(** [a < b] *)
Definition lt (a b : float) : bool := PrimFloat.ltb a b.

Definition is_nan (x : float) : bool := negb (PrimFloat.eqb x x).

(** ** Text *)

Definition lower_ascii (c : ascii) : ascii :=
  let n := nat_of_ascii c in
  if (Nat.leb 65 n && Nat.leb n 90)%bool then ascii_of_nat (n + 32) else c.

(** [s.lower()] *)
Fixpoint lower (s : string) : string :=
  match s with
  | EmptyString => EmptyString
  | String c rest => String (lower_ascii c) (lower rest)
  end.

(** [needle in hay] *)
Fixpoint contains (needle hay : string) : bool :=
  if String.prefix needle hay then true
  else match hay with
       | EmptyString => false
       | String _ rest => contains needle rest
       end.

Definition is_digit (c : ascii) : bool :=
  let n := nat_of_ascii c in (Nat.leb 48 n && Nat.leb n 57)%bool.

(** [YYYY-MM-DD]: four digits, two digits and two digits, with dashes. *)
Definition is_iso_date (s : string) : bool :=
  match list_ascii_of_string s with
  | [y1; y2; y3; y4; a; m1; m2; b; d1; d2] =>
      forallb is_digit [y1; y2; y3; y4; m1; m2; d1; d2]
      && Ascii.eqb a "-" && Ascii.eqb b "-"
  | _ => false
  end.

(** [s[:n]] *)
Definition take (n : nat) (s : string) : string := String.substring 0 n s.

(** ** The libraries *)

Class Libs : Type := {
  (** [float(s)]; [None] when it raises [ValueError]. *)
  py_float : string -> option float;
  (** [str(x)] of a float, as an f-string formats it. *)
  float_str : float -> string;
  (** [round(x, ndigits)] *)
  py_round : float -> Z -> float;
  (** [geodesic((lat1, lon1), (lat2, lon2)).kilometers]; [None] when the
      call raises. *)
  geodesic : float * float -> pyval * pyval -> option float;
  (** [json.loads(s)]; [None] when it raises. *)
  json_loads : string -> option pyval;
  (** [json.dumps(v, ensure_ascii=False)]; [None] when it raises. *)
  json_dumps : pyval -> option string;
  json_dumps_empty : json_dumps (PList []) = Some "[]";
  json_loads_empty : json_loads "[]" = Some (PList []);
  (** A parsed document and one of its elements. *)
  soup : Type;
  tag : Type;
  (** [BeautifulSoup(html, "html.parser")]; [None] when it raises. *)
  BeautifulSoup : string -> option soup;
  (** [soup.find_all(name, attrs)], [attrs] a dict of attribute values. *)
  find_all : soup -> string -> list (string * string) -> list tag;
  (** [soup.find_all(attrs={key: f})], [f] a function of the attribute's
      value ([None] when the attribute is missing). *)
  find_all_where : soup -> string -> (option string -> bool) -> list tag;
  (** [t.find(name, **attrs)]: the first matching descendant. *)
  find : tag -> string -> list (string * string) -> option tag;
  (** [t.get(key)]; [t.has_attr(key)] holds when it is not [None]. *)
  attr : tag -> string -> option string;
  (** [t.get_text(strip=True)] *)
  get_text : tag -> string;
  (** [t.string] *)
  tag_string : tag -> option string
}.

(** ** Module constants *)

Definition MAX_RETRIES : Z := 3.
Definition BROWSER_LAUNCH_TIMEOUT : Z := 60.
Definition PAGE_LOAD_TIMEOUT : Z := 60.
Definition SELECTOR_TIMEOUT : Z := 30.

Definition BASE_URL : string := "https://www.songkick.com".

Definition URL_TIJUANA : string :=
  "https://www.songkick.com/es/metro-areas/31097-mexico-tijuana".
Definition URL_MONTERREY : string :=
  "https://www.songkick.com/es/metro-areas/31098-mexico-monterrey".
Definition URL_GUADALAJARA : string :=
  "https://www.songkick.com/es/metro-areas/31099-mexico-guadalajara".
Definition URL_MEXICO_CITY : string :=
  "https://www.songkick.com/es/metro-areas/31100-mexico-mexico-city".

(** ** Effects *)

(** What the script does to the outside, in the order it does it: a line
    printed on standard output, or a call issued to the browser stack. *)
Inductive event : Type :=
| Stdout (line : string)
| EnsureBrowsers
| PlaywrightStart
| PlaywrightStop
| Launch (i : nat)
| NewPage
| AddInitScript
| SetHeaders
| Goto (url : string)
| Sleep
| WaitForSelector (selector : string)
| Content
| BrowserClose.

(** How an awaited call ends: it completes, [asyncio.TimeoutError] is
    raised, another [Exception] is raised, or the task is cancelled at this
    suspension point (the 120 s budget of [__main__] has run out). *)
Inductive outcome : Type := Done | TimedOut | Failed | Cancelled.

Inductive exn : Type := TimeoutError | CancelledError | Exception.

(** [except Exception] catches [asyncio.TimeoutError], not
    [asyncio.CancelledError] (a [BaseException] since Python 3.8). *)
Definition is_Exception (e : exn) : bool :=
  match e with CancelledError => false | _ => true end.

(** The environment of one run. [launch i] answers the [i]-th launch
    configuration, [content k] the [k]-th call of [page.content()] and
    [close k] the [k]-th call of [browser.close()], counted from 0. *)
Record env : Type := {
  playwright_start : outcome;
  launch : nat -> outcome;
  new_page : outcome;
  add_init_script : outcome;
  set_extra_http_headers : outcome;
  goto : outcome;
  sleep : outcome;
  wait_for_selector : string -> outcome;
  content : nat -> outcome * string;
  close : nat -> outcome;
  playwright_stop : outcome
}.

(** How a block of statements ends: it falls through with a value, it
    executes [return], or an exception leaves it. *)
Inductive completion (A : Type) : Type :=
| Normal (a : A)
| Return
| Raise (e : exn).
Arguments Normal {A} a.
Arguments Return {A}.
Arguments Raise {A} e.

(** [browser] is the local variable of that name: [false] for [None]. *)
Record state : Type := {
  trace : list event;
  browser : bool
}.

Definition M (A : Type) : Type := state -> completion A * state.

Definition ret {A} (a : A) : M A := fun st => (Normal a, st).

Definition bind {A B} (c : M A) (k : A -> M B) : M B :=
  fun st =>
    match c st with
    | (Normal a, st') => k a st'
    | (Return, st') => (Return, st')
    | (Raise e, st') => (Raise e, st')
    end.

Notation "x <- c ;; k" := (bind c (fun x => k))
  (at level 61, c at next level, right associativity).
Notation "c ;; k" := (bind c (fun _ => k))
  (at level 61, right associativity).

Definition return_ {A} : M A := fun st => (Return, st).

Definition raise {A} (e : exn) : M A := fun st => (Raise e, st).

Definition record (ev : event) : M unit :=
  fun st => (Normal tt, {| trace := trace st ++ [ev]; browser := browser st |}).

Definition print (line : string) : M unit := record (Stdout line).

Definition await (ev : event) (o : outcome) : M unit :=
  record ev ;;
  match o with
  | Done => ret tt
  | TimedOut => raise TimeoutError
  | Failed => raise Exception
  | Cancelled => raise CancelledError
  end.

(** [try: body except ...:], [handler e] being the clause that matches
    [e], if any. *)
Definition try_except {A} (body : M A) (handler : exn -> option (M A)) : M A :=
  fun st =>
    match body st with
    | (Raise e, st') =>
        match handler e with
        | Some h => h st'
        | None => (Raise e, st')
        end
    | r => r
    end.

(** [try: body finally: cleanup]: [cleanup] runs however [body] ends, and
    an exception of [cleanup] replaces the way [body] ended. *)
Definition finally {A} (body : M A) (cleanup : M unit) : M A :=
  fun st =>
    let (c, st') := body st in
    match cleanup st' with
    | (Normal _, st'') => (c, st'')
    | (Return, st'') => (Return, st'')
    | (Raise e, st'') => (Raise e, st'')
    end.

(** [async with]: [__aexit__] is awaited however the block ends. *)
Definition async_with {A} (enter exit : M unit) (body : M A) : M A :=
  enter ;; finally body exit.

Definition is_close (ev : event) : bool :=
  match ev with BrowserClose => true | _ => false end.

Definition is_content (ev : event) : bool :=
  match ev with Content => true | _ => false end.

Definition count (p : event -> bool) (t : list event) : nat :=
  List.length (filter p t).

(** [await browser.close()] *)
Definition browser_close (e : env) : M unit :=
  fun st => await BrowserClose (close e (count is_close (trace st))) st.

(** [await page.content()] *)
Definition page_content (e : env) : M string :=
  fun st =>
    let (o, html) := content e (count is_content (trace st)) in
    (await Content o ;; ret html) st.

(** ** Reading a trace *)

(** The lines on standard output. *)
Definition stdout (t : list event) : list string :=
  flat_map (fun ev => match ev with Stdout line => [line] | _ => [] end) t.

(** [c] only adds to the trace, and the lines it prints are such as [Q]
    allows for the way it ends. *)
Definition adds {A} (c : M A) (Q : completion A -> list string -> Prop) : Prop :=
  forall st,
    exists t,
      trace (snd (c st)) = (trace st ++ t)%list /\ Q (fst (c st)) (stdout t).

(** [c] prints nothing and does not execute [return]. *)
Definition silent {A} (c : M A) : Prop :=
  adds c (fun r lines => lines = [] /\ r <> Return).

(** [c] prints nothing when it falls through, [[]] once when it executes
    [return], and nothing or [[]] once when an exception leaves it. *)
Definition gives_up_once {A} (c : M A) : Prop :=
  adds c (fun r lines =>
            match r with
            | Normal _ => lines = []
            | Return => lines = [ "[]" ]
            | Raise _ => lines = [] \/ lines = [ "[]" ]
            end).

Definition issued (ev : event) (st : state) : Prop := In ev (trace st).

(** [st'] is [st] after some more events. *)
Definition extends (st st' : state) : Prop :=
  exists t, trace st' = (trace st ++ t)%list.

(** [c] only adds to the trace and does not leave by [return] before
    [browser.close()] has been called; when [strict], it does not fall
    through before that either. *)
Definition closes_before_leaving {A} (strict : bool) (c : M A) : Prop :=
  forall st,
    extends st (snd (c st)) /\
    match fst (c st) with
    | Normal _ => strict = true -> issued BrowserClose (snd (c st))
    | Return => issued BrowserClose (snd (c st))
    | Raise _ => True
    end.

(** [c] only adds to the trace, and every event it adds satisfies [ok]. *)
Definition only {A} (ok : event -> Prop) (c : M A) : Prop :=
  forall st, exists t, trace (snd (c st)) = (trace st ++ t)%list /\ Forall ok t.

(** [c] prints [[]] once when it executes [return], and nothing when it
    falls through or an exception leaves it. *)
Definition prints_on_return {A} (c : M A) : Prop :=
  adds c (fun r lines =>
            match r with
            | Return => lines = [ "[]" ]
            | _ => lines = []
            end).

(** [c] prints nothing and falls through. *)
Definition falls_through (c : M unit) : Prop :=
  adds c (fun r lines => lines = [] /\ r = Normal tt).

(** The calls made on a launched browser or on its page. *)
Definition uses_browser (ev : event) : bool :=
  match ev with
  | NewPage | AddInitScript | SetHeaders | Goto _ | Sleep | WaitForSelector _
  | Content | BrowserClose => true
  | _ => false
  end.

(** The awaited call was answered by a timeout or by another exception,
    not by the cancellation. *)
Definition missed (o : outcome) : Prop := o = TimedOut \/ o = Failed.

(** [st] after the events [t]. *)
Definition after (st : state) (t : list event) : state :=
  {| trace := trace st ++ t; browser := browser st |}.

Section Script.

Context {L : Libs}.

(** ** Arguments (lines 60-71) *)

Record query : Type := {
  hotel_lat : float;
  hotel_lon : float;
  radius_km : float
}.

(** [sys.argv] is the script name followed by the positional arguments.
    [None]: the script prints the empty array and returns. *)
Definition parse_args (argv : list string) : option query :=
  if Nat.ltb (List.length argv) 4 then None
  else
    match py_float (nth 1 argv "") with
    | None => None
    | Some lat =>
        match py_float (nth 2 argv "") with
        | None => None
        | Some lon =>
            match py_float (nth 3 argv "") with
            | None => None
            | Some radius =>
                Some {| hotel_lat := lat; hotel_lon := lon; radius_km := radius |}
            end
        end
    end.

(** ** Target URL (lines 77-101) *)

(** [f"https://www.songkick.com/search?query=&location={hotel_lat},{hotel_lon}&radius={radius_km}"] *)
Definition search_url (q : query) : string :=
  "https://www.songkick.com/search?query=&location=" ++ float_str (hotel_lat q)
    ++ "," ++ float_str (hotel_lon q) ++ "&radius=" ++ float_str (radius_km q).

Definition in_mexico (q : query) : bool :=
  gt (hotel_lat q) 19 && lt (hotel_lat q) 33
  && gt (hotel_lon q) (-118) && lt (hotel_lon q) (-86).

Definition metro_url (lat : float) : string :=
  if gt lat 32 then URL_TIJUANA
  else if gt lat 25 then URL_MONTERREY
  else if gt lat 20 then URL_GUADALAJARA
  else URL_MEXICO_CITY.

Definition resolve_url (q : query) : string :=
  if truthy (hotel_lat q) && truthy (hotel_lon q) then
    if in_mexico q then metro_url (hotel_lat q)
    else search_url q
  else URL_TIJUANA.

(** ** Selector cascade (lines 306-330) *)

Definition selectores_html : list (string * list (string * string)) :=
  [ ("li", [("class_", "event-listings-element")]);
    ("li", [("class_", "event")]);
    ("div", [("class_", "event-listings-element")]);
    ("div", [("class_", "event")]);
    ("article", [("class_", "event")]);
    ("div", [("data-testid", "event-item")]);
    ("li", [("class_", "event-item")]) ].

(** [lambda x: x and "event" in x.lower()] *)
Definition class_mentions_event (x : option string) : bool :=
  match x with
  | None => false
  | Some c => negb (String.eqb c "") && contains "event" (lower c)
  end.

(** The [for tag, attrs in selectores_html] loop: the first candidate with
    a match gives [eventos_encontrados] and ends the loop. *)
Fixpoint first_match (s : soup) (candidates : list (string * list (string * string)))
  : list tag :=
  match candidates with
  | [] => []
  | (name, attrs) :: rest =>
      match find_all s name attrs with
      | [] => first_match s rest
      | encontrados => encontrados
      end
  end.

Definition eventos_encontrados (s : soup) : list tag :=
  match first_match s selectores_html with
  | [] => find_all_where s "class" class_mentions_event
  | encontrados => encontrados
  end.

(** ** One listing element (lines 333-388) *)

Definition title_of (li : tag) : string :=
  match attr li "title" with Some t => t | None => "" end.

(** Line 337. *)
Definition fecha_raw (li : tag) : string :=
  match find li "time" [] with
  | Some time_tag =>
      match attr time_tag "datetime" with
      | Some datetime => datetime
      | None => title_of li
      end
  | None => title_of li
  end.

(** Lines 339-340. *)
Definition fecha_of (li : tag) : string :=
  let fecha := fecha_raw li in
  if Nat.ltb 10 (String.length fecha) then take 10 fecha else fecha.

Definition nombre_of (li : tag) : string :=
  match find li "strong" [] with Some strong => get_text strong | None => "" end.

Definition lugar_of (li : tag) : string :=
  match find li "a" [("class", "venue-link")] with
  | Some venue => get_text venue
  | None => ""
  end.

Definition enlace_of (li : tag) : string :=
  match find li "a" [("class", "event-link")] with
  | Some event_link =>
      match attr event_link "href" with
      | Some href => BASE_URL ++ href
      | None => ""
      end
  | None => ""
  end.

(** Lines 362-366, inside the inner [try]: [None] when a step raises. *)
Definition geo_of (data : pyval) : option (pyval * pyval) :=
  match
    match data with
    | PList [] => None
    | PList (first :: _) => Some first
    | _ => Some data
    end
  with
  | None => None
  | Some data =>
      match py_get data "location" (PDict []) with
      | None => None
      | Some location =>
          match py_get location "geo" (PDict []) with
          | None => None
          | Some geo =>
              match py_get geo "latitude" PNone, py_get geo "longitude" PNone with
              | Some lat, Some lon => Some (lat, lon)
              | _, _ => None
              end
          end
      end
  end.

(** Lines 355-368: [(lat, lon)], both [None] unless the embedded JSON is
    found, parsed and walked without an exception. *)
Definition coordinates (li : tag) : pyval * pyval :=
  match find li "div" [("class", "microformat")] with
  | None => (PNone, PNone)
  | Some microformat =>
      match find microformat "script" [("type", "application/ld+json")] with
      | None => (PNone, PNone)
      | Some script_tag =>
          match tag_string script_tag with
          | None => (PNone, PNone)
          | Some text =>
              match json_loads text with
              | None => (PNone, PNone)
              | Some data =>
                  match geo_of data with
                  | None => (PNone, PNone)
                  | Some c => c
                  end
              end
          end
      end
  end.

(** How the loop body ends for one element: [continue] at line 370, the
    [except] at line 386, [continue] at line 375, or [eventos.append]. *)
Inductive processed : Type :=
| NoCoordinates
| Faulted
| OutOfRadius (distance : float)
| Appended (evento : pyval).

Definition process (q : query) (li : tag) : processed :=
  let '(lat, lon) := coordinates li in
  if is_None lat || is_None lon then NoCoordinates
  else
    match geodesic (hotel_lat q, hotel_lon q) (lat, lon) with
    | None => Faulted
    | Some distance =>
        if gt distance (radius_km q) then OutOfRadius distance
        else
          Appended
            (PDict
               [ ("nombre", PStr (nombre_of li));
                 ("fecha", PStr (fecha_of li));
                 ("lugar", PStr (lugar_of li));
                 ("enlace", PStr (enlace_of li));
                 ("latitude", lat);
                 ("longitude", lon);
                 ("distance_km", PFloat (py_round distance 2)) ])
    end.

Definition eventos (q : query) (lis : list tag) : list pyval :=
  flat_map (fun li => match process q li with Appended e => [e] | _ => [] end) lis.

(** Lines 392-399: the line printed for [eventos]. *)
Definition json_output (evs : list pyval) : string :=
  match json_dumps (PList evs) with
  | Some text =>
      match json_loads text with
      | Some _ => text
      | None => "[]"
      end
  | None => "[]"
  end.

(** ** Browser session (lines 106-295) *)

Definition launch_options : list (list string) :=
  [ [ "--no-sandbox"; "--disable-setuid-sandbox";
      "--disable-blink-features=AutomationControlled";
      "--disable-web-security"; "--disable-features=VizDisplayCompositor" ];
    [ "--no-sandbox"; "--disable-setuid-sandbox"; "--disable-dev-shm-usage";
      "--disable-blink-features=AutomationControlled" ];
    [ "--no-sandbox"; "--disable-setuid-sandbox"; "--disable-dev-shm-usage";
      "--disable-blink-features=AutomationControlled"; "--disable-web-security" ] ].

(** Lines 134-150. [rest = []] is [i == len(launch_options) - 1]. *)
Fixpoint launch_browser (e : env) (i : nat) (options : list (list string)) : M unit :=
  match options with
  | [] => ret tt
  | _ :: rest =>
      launched <-
        try_except
          (await (Launch i) (launch e i) ;;
           (fun st => (Normal true, {| trace := trace st; browser := true |})))
          (fun ex =>
             match ex with
             | TimeoutError => Some (ret false)
             | Exception =>
                 Some (match rest with [] => raise Exception | _ => ret false end)
             | CancelledError => None
             end) ;;
      if launched then ret tt else launch_browser e (S i) rest
  end.

(** [await browser.close(); print(json.dumps([])); return] *)
Definition close_and_give_up {A} (e : env) : M A :=
  browser_close e ;; print "[]" ;; return_.

(** Lines 193-213. *)
Definition navigate (e : env) (url : string) : M unit :=
  try_except
    (await (Goto url) (goto e) ;; await Sleep (sleep e))
    (fun ex =>
       match ex with
       | TimeoutError => Some (close_and_give_up e)
       | Exception => Some (close_and_give_up e)
       | CancelledError => None
       end).

Definition selectores : list string :=
  [ "li.event-listings-element"; ".event-listings li"; ".event-listings .event";
    "[data-testid='event-item']"; ".event-item" ].

(** Lines 225-240: the value is the flag [eventos_encontrados]. *)
Fixpoint wait_for_events (e : env) (candidates : list string) : M bool :=
  match candidates with
  | [] => ret false
  | selector :: rest =>
      found <-
        try_except
          (await (WaitForSelector selector) (wait_for_selector e selector) ;; ret true)
          (fun ex => if is_Exception ex then Some (ret false) else None) ;;
      if found then ret true else wait_for_events e rest
  end.

Definition contenido_bloqueado : list string :=
  [ "captcha"; "access denied"; "forbidden"; "blocked" ].

Definition bloqueada (html : string) : bool :=
  existsb (fun problema => contains problema (lower html)) contenido_bloqueado.

(** The body of [async with async_playwright() as p] (lines 109-285); its
    value is the [html] of line 273. *)
Definition session (e : env) (url : string) : M string :=
  launch_browser e 0 launch_options ;;
  (fun st => if browser st then ret tt st else raise Exception st) ;;
  await NewPage (new_page e) ;;
  await AddInitScript (add_init_script e) ;;
  await SetHeaders (set_extra_http_headers e) ;;
  navigate e url ;;
  _ <- wait_for_events e selectores ;;
  html <- page_content e ;;
  if Nat.ltb (String.length html) 1000 then close_and_give_up e
  else if bloqueada html then close_and_give_up e
  else
    finally
      (try_except
         (page_content e)
         (fun ex =>
            match ex with
            | TimeoutError => Some (close_and_give_up e)
            | Exception => Some (close_and_give_up e)
            | CancelledError => None
            end))
      (browser_close e).

(** Lines 287-295. *)
Definition on_playwright_error {A} (e : env) : M A :=
  (fun st =>
     if browser st
     then try_except (browser_close e) (fun _ => Some (ret tt)) st
     else ret tt st) ;;
  print "[]" ;;
  return_.

(** Lines 107-295: the [try] around the [async with]. *)
Definition playwright (e : env) (url : string) : M string :=
  try_except
    (async_with
       (await PlaywrightStart (playwright_start e))
       (await PlaywrightStop (playwright_stop e))
       (session e url))
    (fun ex => if is_Exception ex then Some (on_playwright_error e) else None).

(** Lines 297-399: what follows the browser session. *)
Definition process_html (q : query) (html : string) : M unit :=
  match BeautifulSoup html with
  | None => print "[]" ;; return_
  | Some s => print (json_output (eventos q (eventos_encontrados s)))
  end.

(** ** The coroutine and [__main__] *)

Definition scrape_songkick_events (e : env) (argv : list string) : M unit :=
  match parse_args argv with
  | None => print "[]" ;; return_
  | Some q =>
      let URL := resolve_url q in
      record EnsureBrowsers ;;
      html <- playwright e URL ;;
      process_html q html
  end.

Definition initial : state := {| trace := []; browser := false |}.

(** Lines 402-411: [asyncio.wait_for] turns the cancellation into
    [asyncio.TimeoutError]; either [except] clause prints [[]]. *)
Definition main (e : env) (argv : list string) : state :=
  let (c, st) := scrape_songkick_events e argv initial in
  match c with
  | Raise _ => {| trace := trace st ++ [Stdout "[]"]; browser := browser st |}
  | _ => st
  end.

(** The calls and lines the script can issue for the query [q]: the
    three launch configurations, the resolved URL, the five selectors, and
    on standard output [[]] or the line of lines 392-399. *)
Definition scripted (q : query) (ev : event) : Prop :=
  match ev with
  | Stdout line =>
      line = "[]" \/ exists s, line = json_output (eventos q (eventos_encontrados s))
  | Launch i => i < List.length launch_options
  | Goto url => url = resolve_url q
  | WaitForSelector selector => In selector selectores
  | _ => True
  end.

End Script.

(** * A reference implementation of the libraries

    Python's float parsing, formatting and rounding, [json], the part of
    [bs4] the script uses and geopy's checks on coordinates, written out so
    that the script can be run on concrete inputs. The properties of the
    script are proved for every [Libs]; this one provides the examples. *)

Module Reference.

Local Open Scope Z_scope.

(** *** Exact rounding, [repr] and [round] *)

Definition bits (n : Z) : Z := if n =? 0 then 0 else Z.log2 n + 1.

(** The float nearest to [num / den] (ties to even), [num >= 0], [den > 0]. *)
Definition float_of_ratio (neg : bool) (num den : Z) : float :=
  if num =? 0 then (if neg then (-0)%float else 0%float)
  else
    let s := 56 - (bits num - bits den) in
    let n := if 0 <=? s then Z.shiftl num s else num in
    let d := if 0 <=? s then den else Z.shiftl den (- s) in
    let q := n / d in
    let sticky := if n mod d =? 0 then 0 else 1 in
    SF2Prim
      (binary_normalize prec emax ((if neg then -1 else 1) * (2 * q + sticky))
         (- s - 1) neg).

Definition digits_of (n : Z) : string := NilZero.string_of_uint (N.to_uint (Z.to_N n)).

Fixpoint zeros (n : nat) : string :=
  match n with O => "" | S k => String "0" (zeros k) end.

(** [floor (log10 (num / den))] for a positive ratio, by search from [guess]. *)
Fixpoint log10_floor (fuel : nat) (num den guess : Z) : Z :=
  match fuel with
  | O => guess
  | S fuel' =>
      let at_least :=
        if 0 <=? guess then den * 10 ^ guess <=? num
        else den <=? num * 10 ^ (- guess) in
      let below_next :=
        if 0 <=? guess + 1 then num <? den * 10 ^ (guess + 1)
        else num * 10 ^ (- (guess + 1)) <? den in
      if negb at_least then log10_floor fuel' num den (guess - 1)
      else if negb below_next then log10_floor fuel' num den (guess + 1)
      else guess
  end.

(** Nearest integer to [num / den], ties to even. *)
Definition round_half_even (num den : Z) : Z :=
  let q := num / den in
  let r := num mod den in
  match 2 * r ?= den with
  | Lt => q
  | Gt => q + 1
  | Eq => if Z.even q then q else q + 1
  end.

(** Compare [d * 10^k] with [x * 2^e]. *)
Definition cmp_dec_bin (d k x e : Z) : comparison :=
  (d * 10 ^ (Z.max k 0) * 2 ^ (Z.max (- e) 0)
   ?= x * 2 ^ (Z.max e 0) * 10 ^ (Z.max (- k) 0)).

(** The shortest decimal [d * 10^k] that rounds to the float [m * 2^e]:
    the digits [d], their number and [k]. *)
Fixpoint shortest (fuel : nat) (n : Z) (m e p : Z) : Z * Z * Z :=
  let k := p - (n - 1) in
  let boundary := (m =? 2 ^ 52) && (-1074 <? e) in
  let lo := if boundary then 4 * m - 1 else 4 * m - 2 in
  let hi := 4 * m + 2 in
  let inside (d : Z) : bool :=
    let below := cmp_dec_bin d k lo (e - 2) in
    let above := cmp_dec_bin d k hi (e - 2) in
    match below, above with
    | Gt, Lt => true
    | Eq, _ => Z.even m
    | _, Eq => Z.even m
    | _, _ => false
    end in
  let num := m * 2 ^ (Z.max e 0) * 10 ^ (Z.max (- k) 0) in
  let den := 2 ^ (Z.max (- e) 0) * 10 ^ (Z.max k 0) in
  let near := round_half_even num den in
  let down := num / den in
  let other := if near =? down then down + 1 else down in
  let pick :=
    if inside near then Some near
    else if inside other then Some other
    else None in
  match fuel, pick with
  | S fuel', None => shortest fuel' (n + 1) m e p
  | _, Some d => if d =? 10 ^ n then (10 ^ (n - 1), n, k + 1) else (d, n, k)
  | O, None => (near, n, k)
  end.

Definition exponent_str (x : Z) : string :=
  let a := Z.abs x in
  (if x <? 0 then "-" else "+") ++ (if a <? 10 then "0" else "") ++ digits_of a.

(** [repr(x)] *)
Definition float_repr (x : float) : string :=
  match Prim2SF x with
  | S754_nan => "nan"
  | S754_infinity s => if s then "-inf" else "inf"
  | S754_zero s => if s then "-0.0" else "0.0"
  | S754_finite s m e =>
      let m := Zpos m in
      let p := log10_floor 700 (m * 2 ^ (Z.max e 0)) (2 ^ (Z.max (- e) 0)) 0 in
      let '(d, n, k) := shortest 17 1 m e p in
      let ds := digits_of d in
      let decpt := k + n in
      let body :=
        if (-4 <? decpt) && (decpt <=? 16) then
          if decpt <=? 0 then "0." ++ zeros (Z.to_nat (- decpt)) ++ ds
          else if n <=? decpt then ds ++ zeros (Z.to_nat (decpt - n)) ++ ".0"
          else String.substring 0 (Z.to_nat decpt) ds ++ "."
                 ++ String.substring (Z.to_nat decpt) (Z.to_nat (n - decpt)) ds
        else
          String.substring 0 1 ds
            ++ (if 1 <? n then "." ++ String.substring 1 (Z.to_nat (n - 1)) ds else "")
            ++ "e" ++ exponent_str (decpt - 1) in
      (if s then "-" else "") ++ body
  end.

(** [round(x, ndigits)] *)
Definition float_round (x : float) (ndigits : Z) : float :=
  match Prim2SF x with
  | S754_finite s m e =>
      let up := 10 ^ (Z.max ndigits 0) in
      let down := 10 ^ (Z.max (- ndigits) 0) in
      let r :=
        round_half_even (Zpos m * 2 ^ (Z.max e 0) * up)
          (2 ^ (Z.max (- e) 0) * down) in
      float_of_ratio s (r * down) up
  | _ => x
  end.

(** *** float *)

Definition is_space (c : ascii) : bool :=
  let n := nat_of_ascii c in
  (Nat.eqb n 32 || (Nat.leb 9 n && Nat.leb n 13))%bool.

Definition digit_value (c : ascii) : Z := Z.of_nat (nat_of_ascii c) - 48.

Fixpoint drop_spaces (s : list ascii) : list ascii :=
  match s with
  | c :: rest => if is_space c then drop_spaces rest else s
  | [] => []
  end.

Definition strip (s : list ascii) : list ascii :=
  rev (drop_spaces (rev (drop_spaces s))).

(** [digit (["_"] digit)*]: the digits read, most significant first, and
    what follows them. *)
Fixpoint digitpart (s : list ascii) : list ascii * list ascii :=
  match s with
  | c :: rest =>
      if is_digit c then
        let more :=
          match rest with
          | "_"%char :: (d :: _) as rest' =>
              if is_digit d then digitpart rest' else ([], rest)
          | _ => digitpart rest
          end in
        (c :: fst more, snd more)
      else ([], s)
  | [] => ([], [])
  end.

Definition number_of (digits : list ascii) : Z :=
  fold_left (fun n c => 10 * n + digit_value c) digits 0.

(** The float nearest to [mantissa * 10^exp10]. *)
Definition float_of_decimal (neg : bool) (mantissa exp10 : Z) : float :=
  if mantissa =? 0 then float_of_ratio neg 0 1
  else if 400 <? bits mantissa / 4 + exp10 then (if neg then neg_infinity else infinity)
  else if bits mantissa / 3 + exp10 <? -400 then float_of_ratio neg 0 1
  else if 0 <=? exp10 then float_of_ratio neg (mantissa * 10 ^ exp10) 1
  else float_of_ratio neg mantissa (10 ^ (- exp10)).

(** [[digitpart] "." digitpart | digitpart ["."]] *)
Definition number_parts (s : list ascii)
  : option (list ascii * list ascii * list ascii) :=
  let (whole, r1) := digitpart s in
  match r1 with
  | "."%char :: r2 =>
      let (frac, r3) := digitpart r2 in
      match whole, frac with
      | [], [] => None
      | _, _ => Some (whole, frac, r3)
      end
  | _ => match whole with [] => None | _ => Some (whole, [], r1) end
  end.

Definition take_sign (s : list ascii) : bool * list ascii :=
  match s with
  | "-"%char :: r => (true, r)
  | "+"%char :: r => (false, r)
  | _ => (false, s)
  end.

(** [[("e" | "E") [sign] digitpart]] *)
Definition exponent_part (s : list ascii) : option (Z * list ascii) :=
  match s with
  | c :: r =>
      if (Ascii.eqb c "e" || Ascii.eqb c "E")%bool then
        let (neg, r1) := take_sign r in
        let (ds, r2) := digitpart r1 in
        match ds with
        | [] => None
        | _ => Some ((if neg then -1 else 1) * number_of ds, r2)
        end
      else Some (0, s)
  | [] => Some (0, [])
  end.

(** [float(text)] *)
Definition parse_float (text : string) : option float :=
  let (neg, s) := take_sign (strip (list_ascii_of_string text)) in
  let word := lower (string_of_list_ascii s) in
  if (String.eqb word "inf" || String.eqb word "infinity")%bool
  then Some (if neg then neg_infinity else infinity)
  else if String.eqb word "nan" then Some nan
  else
    match number_parts s with
    | None => None
    | Some (whole, frac, r) =>
        match exponent_part r with
        | Some (ex, []) =>
            Some (float_of_decimal neg (number_of (whole ++ frac))
                    (ex - Z.of_nat (List.length frac)))
        | _ => None
        end
    end.

(** *** json *)

Definition hex_value (c : ascii) : option Z :=
  let n := Z.of_nat (nat_of_ascii c) in
  if (48 <=? n) && (n <=? 57) then Some (n - 48)
  else if (97 <=? n) && (n <=? 102) then Some (n - 87)
  else if (65 <=? n) && (n <=? 70) then Some (n - 55)
  else None.

Definition hex_digit (n : Z) : ascii :=
  ascii_of_nat (Z.to_nat (if n <? 10 then n + 48 else n + 87)).

(** The characters of a JSON string after its opening quote, up to the
    closing one. A [\u] escape above 00ff is not supported. *)
Fixpoint json_string (s : list ascii) (acc : list ascii) : option (string * list ascii) :=
  match s with
  | [] => None
  | "034"%char :: rest => Some (string_of_list_ascii (rev acc), rest)
  | "\"%char :: c :: rest =>
      match c with
      | "034"%char | "\"%char | "/"%char => json_string rest (c :: acc)
      | "b"%char => json_string rest (ascii_of_nat 8 :: acc)
      | "f"%char => json_string rest (ascii_of_nat 12 :: acc)
      | "n"%char => json_string rest (ascii_of_nat 10 :: acc)
      | "r"%char => json_string rest (ascii_of_nat 13 :: acc)
      | "t"%char => json_string rest (ascii_of_nat 9 :: acc)
      | "u"%char =>
          match rest with
          | h1 :: h2 :: h3 :: h4 :: rest' =>
              match hex_value h1, hex_value h2, hex_value h3, hex_value h4 with
              | Some 0, Some 0, Some a, Some b =>
                  json_string rest' (ascii_of_nat (Z.to_nat (16 * a + b)) :: acc)
              | _, _, _, _ => None
              end
          | _ => None
          end
      | _ => None
      end
  | c :: rest =>
      if Nat.ltb (nat_of_ascii c) 32 then None else json_string rest (c :: acc)
  end.

Definition is_json_space (c : ascii) : bool :=
  let n := nat_of_ascii c in
  (Nat.eqb n 32 || Nat.eqb n 9 || Nat.eqb n 10 || Nat.eqb n 13)%bool.

Fixpoint skip (s : list ascii) : list ascii :=
  match s with
  | c :: rest => if is_json_space c then skip rest else s
  | [] => []
  end.

Fixpoint digits_run (s : list ascii) : list ascii * list ascii :=
  match s with
  | c :: rest =>
      if is_digit c then let (ds, r) := digits_run rest in (c :: ds, r) else ([], s)
  | [] => ([], [])
  end.

(** A JSON number: an optional minus, an integer part without leading
    zeros, an optional fraction and an optional exponent. *)
Definition json_number (s : list ascii) : option (pyval * list ascii) :=
  let (neg, s1) := match s with "-"%char :: r => (true, r) | _ => (false, s) end in
  let (whole, r1) :=
    match s1 with
    | "0"%char :: r => (["0"%char], r)
    | _ => digits_run s1
    end in
  match whole with
  | [] => None
  | _ =>
      let (frac, r2) :=
        match r1 with
        | "."%char :: r =>
            match digits_run r with
            | ([], _) => ([], r1)
            | found => found
            end
        | _ => ([], r1)
        end in
      let '(has_exp, ex, r3) :=
        match r2 with
        | c :: r =>
            if (Ascii.eqb c "e" || Ascii.eqb c "E")%bool then
              let (eneg, ra) := take_sign r in
              match digits_run ra with
              | ([], _) => (false, 0, r2)
              | (ds, rb) => (true, (if eneg then -1 else 1) * number_of ds, rb)
              end
            else (false, 0, r2)
        | [] => (false, 0, r2)
        end in
      match frac, has_exp with
      | [], false => Some (PInt ((if neg then -1 else 1) * number_of whole), r3)
      | _, _ =>
          Some (PFloat (float_of_decimal neg (number_of (whole ++ frac))
                          (ex - Z.of_nat (List.length frac))), r3)
      end
  end.

(** [d[key] = v] *)
Fixpoint dict_set (key : string) (v : pyval) (entries : list (string * pyval))
  : list (string * pyval) :=
  match entries with
  | [] => [(key, v)]
  | (k, old) :: rest =>
      if String.eqb k key then (k, v) :: rest else (k, old) :: dict_set key v rest
  end.

Fixpoint json_value (fuel : nat) (s : list ascii) : option (pyval * list ascii) :=
  match fuel with
  | O => None
  | S fuel' =>
      match skip s with
      | "n"%char :: "u"%char :: "l"%char :: "l"%char :: r => Some (PNone, r)
      | "t"%char :: "r"%char :: "u"%char :: "e"%char :: r => Some (PBool true, r)
      | "f"%char :: "a"%char :: "l"%char :: "s"%char :: "e"%char :: r =>
          Some (PBool false, r)
      | "N"%char :: "a"%char :: "N"%char :: r => Some (PFloat nan, r)
      | "I"%char :: "n"%char :: "f"%char :: "i"%char :: "n"%char :: "i"%char
          :: "t"%char :: "y"%char :: r => Some (PFloat infinity, r)
      | "-"%char :: "I"%char :: "n"%char :: "f"%char :: "i"%char :: "n"%char
          :: "i"%char :: "t"%char :: "y"%char :: r => Some (PFloat neg_infinity, r)
      | "034"%char :: r =>
          match json_string r [] with
          | Some (text, r') => Some (PStr text, r')
          | None => None
          end
      | "["%char :: r =>
          match skip r with
          | "]"%char :: r' => Some (PList [], r')
          | _ => json_items fuel' r []
          end
      | "{"%char :: r =>
          match skip r with
          | "}"%char :: r' => Some (PDict [], r')
          | _ => json_members fuel' r []
          end
      | other => json_number other
      end
  end
with json_items (fuel : nat) (s : list ascii) (acc : list pyval)
  : option (pyval * list ascii) :=
  match fuel with
  | O => None
  | S fuel' =>
      match json_value fuel' s with
      | None => None
      | Some (v, r) =>
          match skip r with
          | ","%char :: r' => json_items fuel' r' (v :: acc)
          | "]"%char :: r' => Some (PList (rev (v :: acc)), r')
          | _ => None
          end
      end
  end
with json_members (fuel : nat) (s : list ascii) (acc : list (string * pyval))
  : option (pyval * list ascii) :=
  match fuel with
  | O => None
  | S fuel' =>
      match skip s with
      | "034"%char :: r =>
          match json_string r [] with
          | None => None
          | Some (key, r1) =>
              match skip r1 with
              | ":"%char :: r2 =>
                  match json_value fuel' r2 with
                  | None => None
                  | Some (v, r3) =>
                      match skip r3 with
                      | ","%char :: r4 => json_members fuel' r4 (dict_set key v acc)
                      | "}"%char :: r4 => Some (PDict (dict_set key v acc), r4)
                      | _ => None
                      end
                  end
              | _ => None
              end
          end
      | _ => None
      end
  end.

(** [json.loads(text)] *)
Definition loads (text : string) : option pyval :=
  let s := list_ascii_of_string text in
  match json_value (2 * List.length s + 2) s with
  | Some (v, r) => match skip r with [] => Some v | _ => None end
  | None => None
  end.

Definition escape (c : ascii) : string :=
  let n := nat_of_ascii c in
  if Ascii.eqb c "034" then String "\" (String "034" "")
  else if Ascii.eqb c "\" then "\\"
  else if Nat.eqb n 10 then "\n"
  else if Nat.eqb n 13 then "\r"
  else if Nat.eqb n 9 then "\t"
  else if Nat.eqb n 8 then "\b"
  else if Nat.eqb n 12 then "\f"
  else if Nat.ltb n 32 then
    "\u00" ++ String (hex_digit (Z.of_nat (n / 16)))
                (String (hex_digit (Z.of_nat (n mod 16))) "")
  else String c "".

Fixpoint escaped (s : string) : string :=
  match s with
  | EmptyString => ""
  | String c rest => escape c ++ escaped rest
  end.

Definition quoted (s : string) : string :=
  String "034" (escaped s ++ String "034" "").

Definition int_str (n : Z) : string :=
  (if n <? 0 then "-" else "") ++ digits_of (Z.abs n).

(** [json.dumps(v, ensure_ascii=False)] *)
Fixpoint dumps (v : pyval) : string :=
  match v with
  | PNone => "null"
  | PBool b => if b then "true" else "false"
  | PInt n => int_str n
  | PFloat x =>
      match Prim2SF x with
      | S754_nan => "NaN"
      | S754_infinity s => if s then "-Infinity" else "Infinity"
      | _ => float_repr x
      end
  | PStr s => quoted s
  | PList items =>
      "[" ++ (fix go (l : list pyval) : string :=
                match l with
                | [] => ""
                | [x] => dumps x
                | x :: rest => dumps x ++ ", " ++ go rest
                end) items ++ "]"
  | PDict entries =>
      "{" ++ (fix go (l : list (string * pyval)) : string :=
                match l with
                | [] => ""
                | [(k, x)] => quoted k ++ ": " ++ dumps x
                | (k, x) :: rest => quoted k ++ ": " ++ dumps x ++ ", " ++ go rest
                end) entries ++ "}"
  end.

(** *** bs4 *)

Inductive node : Type :=
| Element (name : string) (attrs : list (string * string)) (children : list node)
| Text (text : string).

Fixpoint assoc (key : string) (l : list (string * string)) : option string :=
  match l with
  | [] => None
  | (k, v) :: rest => if String.eqb k key then Some v else assoc key rest
  end.

(** The descendants of a node, in document order. *)
Fixpoint descendants (n : node) : list node :=
  match n with
  | Element _ _ children =>
      (fix go (l : list node) : list node :=
         match l with
         | [] => []
         | k :: rest => ((k :: descendants k) ++ go rest)%list
         end) children
  | Text _ => []
  end.

Definition attr_of (n : node) (key : string) : option string :=
  match n with
  | Element _ attrs _ => assoc key attrs
  | Text _ => None
  end.

(** [s.split()] *)
Fixpoint words_from (s : list ascii) (word : list ascii) : list string :=
  match s with
  | [] => match word with [] => [] | _ => [string_of_list_ascii (rev word)] end
  | c :: rest =>
      if is_space c then
        match word with
        | [] => words_from rest []
        | _ => string_of_list_ascii (rev word) :: words_from rest []
        end
      else words_from rest (c :: word)
  end.

Definition words (s : string) : list string := words_from (list_ascii_of_string s) [].

(** The values an attribute is matched by: the whole value and, for
    [class], each of its words. *)
Definition values (n : node) (key : string) : list string :=
  match attr_of n key with
  | None => []
  | Some a => if String.eqb key "class" then a :: words a else [a]
  end.

Definition is_element (n : node) : bool :=
  match n with Element _ _ _ => true | Text _ => false end.

Definition matches (name : string) (attrs : list (string * string)) (n : node) : bool :=
  match n with
  | Element nm _ _ =>
      (String.eqb nm name
       && forallb (fun kv => existsb (String.eqb (snd kv)) (values n (fst kv))) attrs)%bool
  | Text _ => false
  end.

Definition satisfies (key : string) (f : option string -> bool) (n : node) : bool :=
  (is_element n
   && match values n key with
      | [] => f None
      | vs => existsb (fun v => f (Some v)) vs
      end)%bool.

Definition everything (doc : list node) : list node :=
  flat_map (fun n => n :: descendants n) doc.

Definition strip_text (s : string) : string :=
  string_of_list_ascii (strip (list_ascii_of_string s)).

(** [t.get_text(strip=True)] *)
Definition text_of (n : node) : string :=
  String.concat ""
    (flat_map (fun d => match d with
                        | Text s => match strip_text s with "" => [] | w => [w] end
                        | Element _ _ _ => []
                        end)
       (descendants n)).

(** [t.string] *)
Fixpoint string_of (n : node) : option string :=
  match n with
  | Text s => Some s
  | Element _ _ [only] => string_of only
  | Element _ _ _ => None
  end.

(** **** html.parser, for markup without comments, entities and CDATA *)

Inductive token : Type :=
| Open (name : string) (attrs : list (string * string)) (closed : bool)
| Close (name : string)
| Chars (text : string).

Fixpoint span (p : ascii -> bool) (s : list ascii) : list ascii * list ascii :=
  match s with
  | c :: rest => if p c then let (a, b) := span p rest in (c :: a, b) else ([], s)
  | [] => ([], [])
  end.

Definition name_char (c : ascii) : bool :=
  negb (is_space c || Ascii.eqb c "=" || Ascii.eqb c ">" || Ascii.eqb c "/")%bool.

Definition lowered (s : list ascii) : string := lower (string_of_list_ascii s).

(** The attributes of a start tag, up to its [>]: the attributes, whether
    the tag ends in [/>], and what follows the tag. *)
Fixpoint attributes (fuel : nat) (s : list ascii) (acc : list (string * string))
  : list (string * string) * bool * list ascii :=
  match fuel with
  | O => (rev acc, false, [])
  | S fuel' =>
      match drop_spaces s with
      | [] => (rev acc, false, [])
      | ">"%char :: rest => (rev acc, false, rest)
      | "/"%char :: ">"%char :: rest => (rev acc, true, rest)
      | "/"%char :: rest => attributes fuel' rest acc
      | s1 =>
          let (key, r1) := span name_char s1 in
          match key, drop_spaces r1 with
          | [], _ :: rest => attributes fuel' rest acc
          | [], [] => (rev acc, false, [])
          | _, "="%char :: r2 =>
              match drop_spaces r2 with
              | q :: r3 =>
                  if (Ascii.eqb q "034" || Ascii.eqb q "'")%bool then
                    let (v, r4) := span (fun c => negb (Ascii.eqb c q)) r3 in
                    attributes fuel' (tl r4) ((lowered key, string_of_list_ascii v) :: acc)
                  else
                    let (v, r4) :=
                      span (fun c => negb (is_space c || Ascii.eqb c ">")%bool) (q :: r3) in
                    attributes fuel' r4 ((lowered key, string_of_list_ascii v) :: acc)
              | [] => (rev ((lowered key, "") :: acc), false, [])
              end
          | _, r2 => attributes fuel' r2 ((lowered key, "") :: acc)
          end
      end
  end.

Fixpoint starts_with (p s : list ascii) : bool :=
  match p, s with
  | [], _ => true
  | a :: p', b :: s' => (Ascii.eqb a (lower_ascii b) && starts_with p' s')%bool
  | _, [] => false
  end.

(** The text up to the end tag [</name], and the rest from that tag on. *)
Fixpoint raw_text (name : list ascii) (s : list ascii) : list ascii * list ascii :=
  match s with
  | [] => ([], [])
  | c :: rest =>
      if (Ascii.eqb c "<" && starts_with ("/"%char :: name) rest)%bool then ([], s)
      else let (a, b) := raw_text name rest in (c :: a, b)
  end.

Definition raw_element (name : string) : bool :=
  (String.eqb name "script" || String.eqb name "style")%bool.

Fixpoint tokens (fuel : nat) (s : list ascii) : list token :=
  match fuel with
  | O => []
  | S fuel' =>
      match s with
      | [] => []
      | "<"%char :: "/"%char :: rest =>
          let (name, r1) := span name_char rest in
          let (_, r2) := span (fun c => negb (Ascii.eqb c ">")) r1 in
          Close (lowered name) :: tokens fuel' (tl r2)
      | "<"%char :: "!"%char :: rest =>
          let (_, r1) := span (fun c => negb (Ascii.eqb c ">")) rest in
          tokens fuel' (tl r1)
      | "<"%char :: rest =>
          let (name, r1) := span name_char rest in
          match name with
          | [] => Chars "<" :: tokens fuel' rest
          | _ =>
              let '(attrs, closed, r2) := attributes (S (List.length r1)) r1 [] in
              if raw_element (lowered name) then
                let (text, r3) := raw_text (list_ascii_of_string (lowered name)) r2 in
                Open (lowered name) attrs closed
                  :: match text with
                     | [] => tokens fuel' r3
                     | _ => Chars (string_of_list_ascii text) :: tokens fuel' r3
                     end
              else Open (lowered name) attrs closed :: tokens fuel' r2
          end
      | _ =>
          let (text, r1) := span (fun c => negb (Ascii.eqb c "<")) s in
          Chars (string_of_list_ascii text) :: tokens fuel' r1
      end
  end.

Definition void_element (name : string) : bool :=
  existsb (String.eqb name)
    [ "area"; "base"; "br"; "col"; "embed"; "hr"; "img"; "input"; "link";
      "meta"; "param"; "source"; "track"; "wbr" ].

(** The nodes up to the end tag of the innermost open element, and the
    tokens after it. An end tag for an outer open element ends the inner
    ones too; an end tag for no open element is dropped. *)
Fixpoint nodes (fuel : nat) (open : list string) (ts : list token)
  : list node * list token :=
  match fuel with
  | O => ([], [])
  | S fuel' =>
      match ts with
      | [] => ([], [])
      | Chars text :: rest =>
          let (siblings, after) := nodes fuel' open rest in
          (Text text :: siblings, after)
      | Open name attrs closed :: rest =>
          if (closed || void_element name)%bool then
            let (siblings, after) := nodes fuel' open rest in
            (Element name attrs [] :: siblings, after)
          else
            let (children, r1) := nodes fuel' (name :: open) rest in
            match r1 with
            | Close n :: r2 =>
                if String.eqb n name then
                  let (siblings, after) := nodes fuel' open r2 in
                  (Element name attrs children :: siblings, after)
                else ([Element name attrs children], r1)
            | _ => ([Element name attrs children], r1)
            end
      | Close n :: rest =>
          if existsb (String.eqb n) open then ([], ts)
          else nodes fuel' open rest
      end
  end.

(** [BeautifulSoup(html, "html.parser")] *)
Definition parse_html (html : string) : list node :=
  let s := list_ascii_of_string html in
  let ts := tokens (S (List.length s)) s in
  fst (nodes (S (List.length ts)) [] ts).

(** *** geopy *)

(** [float(v or 0.0)], as [geopy.point] converts a coordinate. *)
Definition coordinate (v : pyval) : option float :=
  match v with
  | PNone => Some 0%float
  | PBool b => Some (if b then 1 else 0)%float
  | PInt n =>
      let x := float_of_ratio (n <? 0) (Z.abs n) 1 in
      if PrimFloat.eqb (abs x) infinity then None else Some x
  | PFloat x => Some (if PrimFloat.eqb x 0 then 0%float else x)
  | PStr s => if String.eqb s "" then Some 0%float else parse_float s
  | PList [] => Some 0%float
  | PDict [] => Some 0%float
  | PList _ => None
  | PDict _ => None
  end.

Definition finite (x : float) : bool :=
  (PrimFloat.eqb x x && negb (PrimFloat.eqb (abs x) infinity))%bool.

(** [math.fmod(x, 360.0)] *)
Definition fmod360 (x : float) : float :=
  match Prim2SF x with
  | S754_finite s m e =>
      let den := 2 ^ (Z.max (- e) 0) in
      float_of_ratio s ((Zpos m * 2 ^ (Z.max e 0)) mod (360 * den)) den
  | _ => x
  end.

(** [_normalize_angle(x, 180.0)] *)
Definition normalize_angle (x : float) : float :=
  let modulo := fmod360 x in
  let modulo := if PrimFloat.eqb modulo 0 then 0%float else modulo in
  if PrimFloat.ltb modulo (-180) then (modulo + 360)%float
  else if PrimFloat.leb 180 modulo then (modulo - 360)%float
  else modulo.

(** [Point(lat, lon)]: [None] when geopy raises [ValueError] or
    [TypeError]. *)
Definition point (lat lon : pyval) : option (float * float) :=
  match coordinate lat, coordinate lon with
  | Some la, Some lo =>
      if (finite la && finite lo)%bool then
        if PrimFloat.ltb 90 (abs la) then None
        else Some (la, if PrimFloat.ltb 180 (abs lo) then normalize_angle lo else lo)
      else None
  | _, _ => None
  end.

Definition radians (x : float) : float := (x * (3.141592653589793 / 180))%float.

(** The cosine of an angle between -pi/2 and pi/2, by its Taylor series. *)
Definition cosine (x : float) : float :=
  let y := (x * x)%float in
  (1 - y / 2 * (1 - y / 12 * (1 - y / 30 * (1 - y / 56 * (1 - y / 90
     * (1 - y / 132 * (1 - y / 182 * (1 - y / 240 * (1 - y / 306)))))))))%float.

(** The distance in kilometres between two points: the equirectangular
    approximation on a sphere of radius 6371 km. It stands in for the
    ellipsoidal computation of [geodesic], from which it differs by a
    fraction of a percent over the distances the script filters on. *)
Definition kilometers (a b : float * float) : float :=
  let dlat := radians (fst b - fst a) in
  let d := (snd b - snd a)%float in
  let d := if PrimFloat.ltb 180 d then (d - 360)%float
           else if PrimFloat.ltb d (-180) then (d + 360)%float else d in
  let dlon := (radians d * cosine (radians ((fst a + fst b) / 2)))%float in
  (6371 * sqrt (dlat * dlat + dlon * dlon))%float.

(** [geodesic(a, b).kilometers] *)
Definition distance (a : float * float) (b : pyval * pyval) : option float :=
  match point (PFloat (fst a)) (PFloat (snd a)), point (fst b) (snd b) with
  | Some p, Some q => Some (kilometers p q)
  | _, _ => None
  end.

End Reference.

(** ** The libraries, implemented *)

Definition python : Libs := {|
  py_float := Reference.parse_float;
  float_str := Reference.float_repr;
  py_round := Reference.float_round;
  geodesic := Reference.distance;
  json_loads := Reference.loads;
  json_dumps := fun v => Some (Reference.dumps v);
  json_dumps_empty := eq_refl;
  json_loads_empty := eq_refl;
  soup := list Reference.node;
  tag := Reference.node;
  BeautifulSoup := fun html => Some (Reference.parse_html html);
  find_all := fun doc name attrs =>
    filter (Reference.matches name attrs) (Reference.everything doc);
  find_all_where := fun doc key f =>
    filter (Reference.satisfies key f) (Reference.everything doc);
  find := fun t name attrs =>
    hd_error (filter (Reference.matches name attrs) (Reference.descendants t));
  attr := Reference.attr_of;
  get_text := Reference.text_of;
  tag_string := Reference.string_of
|}.

(** * Sample inputs *)

Definition argv_tijuana : list string :=
  [ "scrape_songkick.py"; "32.5"; "-117.0"; "20" ].

(** Every awaited call completes and [page.content()] returns [html]. *)
Definition calm (html : string) : env := {|
  playwright_start := Done;
  launch := fun _ => Done;
  new_page := Done;
  add_init_script := Done;
  set_extra_http_headers := Done;
  goto := Done;
  sleep := Done;
  wait_for_selector := fun _ => Done;
  content := fun _ => (Done, html);
  close := fun _ => Done;
  playwright_stop := Done
|}.

(** [page.goto] times out after the browser has been launched. *)
Definition navigation_timeout : env := {|
  playwright_start := Done;
  launch := fun _ => Done;
  new_page := Done;
  add_init_script := Done;
  set_extra_http_headers := Done;
  goto := TimedOut;
  sleep := Done;
  wait_for_selector := fun _ => Done;
  content := fun _ => (Done, "");
  close := fun _ => Done;
  playwright_stop := Done
|}.

(** [page.goto] times out, [browser.close()] completes, and the 120 s of
    [__main__] run out while the [async with] block is being left. *)
Definition late_cancel : env := {|
  playwright_start := Done;
  launch := fun _ => Done;
  new_page := Done;
  add_init_script := Done;
  set_extra_http_headers := Done;
  goto := TimedOut;
  sleep := Done;
  wait_for_selector := fun _ => Done;
  content := fun _ => (Done, "");
  close := fun _ => Done;
  playwright_stop := Cancelled
|}.

(** As [late_cancel], with an exception raised by the exit of the
    [async with] block instead of the cancellation. *)
Definition failing_exit : env := {|
  playwright_start := Done;
  launch := fun _ => Done;
  new_page := Done;
  add_init_script := Done;
  set_extra_http_headers := Done;
  goto := TimedOut;
  sleep := Done;
  wait_for_selector := fun _ => Done;
  content := fun _ => (Done, "");
  close := fun _ => Done;
  playwright_stop := Failed
|}.

(** The 120 s run out during [page.goto]. *)
Definition cancelled_navigation : env := {|
  playwright_start := Done;
  launch := fun _ => Done;
  new_page := Done;
  add_init_script := Done;
  set_extra_http_headers := Done;
  goto := Cancelled;
  sleep := Done;
  wait_for_selector := fun _ => Done;
  content := fun _ => (Done, "");
  close := fun _ => Done;
  playwright_stop := Done
|}.

(** [browser.new_page()] raises after the browser has been launched, and
    the 120 s of [__main__] run out while the [async with] block is being
    left. *)
Definition exit_cancelled : env := {|
  playwright_start := Done;
  launch := fun _ => Done;
  new_page := Failed;
  add_init_script := Done;
  set_extra_http_headers := Done;
  goto := Done;
  sleep := Done;
  wait_for_selector := fun _ => Done;
  content := fun _ => (Done, "");
  close := fun _ => Done;
  playwright_stop := Cancelled
|}.

(** The text of a linked-data block with the given coordinates. *)
Definition ld_json (lat lon : pyval) : string :=
  Reference.dumps
    (PList
       [ PDict
           [ ("@type", PStr "MusicEvent");
             ("location",
              PDict [ ("geo", PDict [ ("latitude", lat); ("longitude", lon) ]) ]) ] ]).

Definition microformat_of (lat lon : pyval) : Reference.node :=
  Reference.Element "div" [ ("class", "microformat") ]
    [ Reference.Element "script" [ ("type", "application/ld+json") ]
        [ Reference.Text (ld_json lat lon) ] ].

(** A listing with a time tag, an event link, a venue link and
    coordinates. *)
Definition listing (lat lon : pyval) : Reference.node :=
  Reference.Element "li"
    [ ("class", "event-listings-element"); ("title", "Saturday 14 June 2025") ]
    [ Reference.Element "time" [ ("datetime", "2025-06-14T20:00:00-0700") ] [];
      Reference.Element "a" [ ("class", "event-link"); ("href", "/concerts/42-cafe-tacvba") ]
        [ Reference.Element "strong" [] [ Reference.Text " Cafe Tacvba " ] ];
      Reference.Element "a" [ ("class", "venue-link"); ("href", "/venues/7-foro") ]
        [ Reference.Text "Foro" ];
      microformat_of lat lon ].

(** A listing with a title and coordinates only. *)
Definition bare_listing (title : string) (lat lon : pyval) : Reference.node :=
  Reference.Element "li" [ ("class", "event-listings-element"); ("title", title) ]
    [ microformat_of lat lon ].

Definition tijuana : query :=
  {| hotel_lat := 32.5; hotel_lon := -117; radius_km := 20 |}.

Definition null_island : query :=
  {| hotel_lat := 0; hotel_lon := 2.3; radius_km := 10 |}.

Definition any_distance : query :=
  {| hotel_lat := 32.5; hotel_lon := -117; radius_km := nan |}.

(** A page of more than 1000 characters with two listings, the second
    one 56 km north of the query point of [argv_tijuana]. *)
Definition sample_page : string :=
  "<!DOCTYPE html><html><head><title>Tijuana concerts</title></head><body>"
    ++ String.concat "" (repeat "<p class='ad'>Songkick: live music near you</p>" 25)
    ++ "<ul class='listings'>"
    ++ "<li class='event-listings-element' title='Saturday 14 June 2025'>"
    ++ "<time datetime='2025-06-14T20:00:00-0700'></time>"
    ++ "<a class='event-link' href='/concerts/42-cafe-tacvba'><strong> Cafe Tacvba </strong></a>"
    ++ "<a class='venue-link' href='/venues/7-foro'>Foro</a>"
    ++ "<div class='microformat'><script type='application/ld+json'>"
    ++ ld_json (PFloat 32.53) (PFloat (-117.02))
    ++ "</script></div></li>"
    ++ "<li class='event-listings-element' title='Sunday'><strong>Far away</strong>"
    ++ "<div class='microformat'><script type='application/ld+json'>"
    ++ ld_json (PFloat 33) (PFloat (-117))
    ++ "</script></div></li></ul></body></html>".

(** A document in which only the sixth candidate of the cascade has a
    match. *)
Definition testid_document : list Reference.node :=
  [ Reference.Element "div" [ ("data-testid", "event-item"); ("class", "card") ]
      [ microformat_of (PFloat 32.5) (PFloat (-117)) ];
    Reference.Element "li" [ ("class", "event-listings-element") ]
      [ microformat_of (PFloat 32.5) (PFloat (-117)) ] ].

(** The record of [listing (PFloat 32.53) (PFloat (-117.02))] for the query
    [tijuana]. *)
Definition near_event : pyval :=
  PDict
    [ ("nombre", PStr "Cafe Tacvba");
      ("fecha", PStr "2025-06-14");
      ("lugar", PStr "Foro");
      ("enlace", PStr "https://www.songkick.com/concerts/42-cafe-tacvba");
      ("latitude", PFloat 32.53);
      ("longitude", PFloat (-117.02));
      ("distance_km", PFloat 3.83) ].

(** No launch configuration answers within its 60 s. *)
Definition no_display : env := {|
  playwright_start := Done;
  launch := fun _ => TimedOut;
  new_page := Done;
  add_init_script := Done;
  set_extra_http_headers := Done;
  goto := Done;
  sleep := Done;
  wait_for_selector := fun _ => Done;
  content := fun _ => (Done, "");
  close := fun _ => Done;
  playwright_stop := Done
|}.

(** The first two launch configurations fail, the third launches, and no
    selector of lines 217-223 is found. *)
Definition slow_start (html : string) : env := {|
  playwright_start := Done;
  launch := fun i => match i with 0 => TimedOut | 1 => Failed | _ => Done end;
  new_page := Done;
  add_init_script := Done;
  set_extra_http_headers := Done;
  goto := Done;
  sleep := Done;
  wait_for_selector := fun _ => TimedOut;
  content := fun _ => (Done, html);
  close := fun _ => Done;
  playwright_stop := Done
|}.

(** A page of more than 1000 characters that a proxy has answered. *)
Definition blocked_page : string :=
  "<html><head><title>Error</title></head><body><h1>Access Denied</h1>"
    ++ String.concat ""
         (repeat "<p>You don't have permission to access this server.</p>" 25)
    ++ "</body></html>".

(** The linked-data payload of [listing (PFloat 32.53) (PFloat (-117.02))]. *)
Definition sample_payload : pyval :=
  PList
    [ PDict
        [ ("@type", PStr "MusicEvent");
          ("location",
           PDict
             [ ("geo",
                PDict [ ("latitude", PFloat 32.53); ("longitude", PFloat (-117.02)) ]) ]) ] ].

(** * Properties *)

(** ** Float comparisons *)

Lemma positive_truthy (a x : float) (m : positive) (e : Z) :
  Prim2SF a = S754_finite false m e -> lt a x = true -> truthy x = true.
Proof.
  unfold lt, truthy. rewrite ltb_spec, FloatAxioms.eqb_spec. intros ->.
  change (Prim2SF 0) with (S754_zero false). unfold SFltb, SFeqb.
  destruct (Prim2SF x) as [s | s | | s m' e']; try destruct s; simpl;
    congruence.
Qed.

Lemma negative_truthy (a x : float) (m : positive) (e : Z) :
  Prim2SF a = S754_finite true m e -> lt x a = true -> truthy x = true.
Proof.
  unfold lt, truthy. rewrite ltb_spec, FloatAxioms.eqb_spec. intros ->.
  change (Prim2SF 0) with (S754_zero false). unfold SFltb, SFeqb.
  destruct (Prim2SF x) as [s | s | | s m' e']; try destruct s; simpl;
    congruence.
Qed.

Lemma SFcompare_antisym (x y : spec_float) :
  SFcompare y x = option_map CompOpp (SFcompare x y).
Proof.
  destruct x as [sx | sx | | sx mx ex], y as [sy | sy | | sy my ey];
    try destruct sx; try destruct sy; simpl; try reflexivity.
  all: rewrite (Z.compare_antisym ey ex);
    destruct (ey ?= ex)%Z; simpl; try reflexivity;
    rewrite (Pos.compare_cont_antisym mx my Eq); simpl;
    rewrite ?CompOpp_involutive; reflexivity.
Qed.

Lemma SFcompare_None (x y : spec_float) :
  SFcompare x y = None -> x = S754_nan \/ y = S754_nan.
Proof.
  destruct x as [sx | sx | | sx mx ex], y as [sy | sy | | sy my ey]; simpl;
    auto; discriminate.
Qed.

Lemma SFcompare_nan (x : spec_float) :
  SFcompare x x = None -> x = S754_nan.
Proof. intros H. destruct (SFcompare_None _ _ H); assumption. Qed.

(** [not (d > r)] is [d <= r] unless one of them is NaN. *)
Lemma not_gt_le (d r : float) :
  is_nan d = false -> is_nan r = false -> gt d r = false ->
  PrimFloat.leb d r = true.
Proof.
  unfold is_nan, gt.
  rewrite !FloatAxioms.eqb_spec, ltb_spec, leb_spec.
  unfold SFeqb, SFltb, SFleb. intros Hd Hr.
  rewrite (SFcompare_antisym (Prim2SF d) (Prim2SF r)).
  destruct (SFcompare (Prim2SF d) (Prim2SF r)) as [[ | | ] | ] eqn:E; simpl;
    try congruence.
  destruct (SFcompare_None _ _ E) as [N | N]; rewrite N in *; simpl in *;
    discriminate.
Qed.

Section Properties.

Context {L : Libs}.

(** ** Target URL *)

Lemma in_mexico_truthy (q : query) :
  in_mexico q = true ->
  truthy (hotel_lat q) = true /\ truthy (hotel_lon q) = true.
Proof.
  unfold in_mexico. rewrite !andb_true_iff. intros [[[H1 _] _] H4]. split.
  - eapply positive_truthy; [ | exact H1 ]. reflexivity.
  - eapply negative_truthy; [ | exact H4 ]. reflexivity.
Qed.

Lemma search_url_not_metro (q : query) : search_url q <> URL_TIJUANA.
Proof. unfold search_url, URL_TIJUANA. simpl. discriminate. Qed.

(** C2, amended. The target URL is a function of the query. Inside the
    Mexico box (19 < lat < 33 and -118 < lon < -86) it is chosen by the
    latitude bands tested top-down: lat > 32 Tijuana, else lat > 25
    Monterrey, else lat > 20 Guadalajara, else Mexico City. Outside the box,
    when neither coordinate is zero, it is the search URL built from the
    formatted latitude, longitude and radius. (32.5, -117.0, 20) gives
    Tijuana, (19.4, -99.1, 15) Mexico City and (48.8, 2.3, 10) the search
    URL of 48.8, 2.3 and 10.0. *)
Theorem resolve_url_routing (q : query) :
  (PrimFloat.ltb 19 (hotel_lat q) = true -> PrimFloat.ltb (hotel_lat q) 33 = true ->
   PrimFloat.ltb (-118) (hotel_lon q) = true ->
   PrimFloat.ltb (hotel_lon q) (-86) = true ->
   resolve_url q =
     if gt (hotel_lat q) 32 then URL_TIJUANA
     else if gt (hotel_lat q) 25 then URL_MONTERREY
     else if gt (hotel_lat q) 20 then URL_GUADALAJARA
     else URL_MEXICO_CITY) /\
  (in_mexico q = false ->
   truthy (hotel_lat q) = true -> truthy (hotel_lon q) = true ->
   resolve_url q =
     "https://www.songkick.com/search?query=&location="
       ++ float_str (hotel_lat q) ++ "," ++ float_str (hotel_lon q)
       ++ "&radius=" ++ float_str (radius_km q)) /\
  resolve_url {| hotel_lat := 32.5; hotel_lon := -117; radius_km := 20 |}
    = URL_TIJUANA /\
  resolve_url {| hotel_lat := 19.4; hotel_lon := -99.1; radius_km := 15 |}
    = URL_MEXICO_CITY /\
  resolve_url {| hotel_lat := 48.8; hotel_lon := 2.3; radius_km := 10 |}
    = "https://www.songkick.com/search?query=&location="
        ++ float_str 48.8 ++ "," ++ float_str 2.3 ++ "&radius=" ++ float_str 10.
Proof.
  repeat split; try reflexivity.
  - intros H1 H2 H3 H4.
    assert (H : in_mexico q = true).
    { unfold in_mexico, gt, lt. rewrite H1, H2, H3, H4. reflexivity. }
    destruct (in_mexico_truthy q H) as [Hlat Hlon].
    unfold resolve_url. rewrite Hlat, Hlon, H. reflexivity.
  - intros H Hlat Hlon. unfold resolve_url. rewrite Hlat, Hlon, H. reflexivity.
Qed.

(** C10. A query whose latitude or longitude equals 0.0 lies outside the
    Mexico box, yet it is not given the search URL: the truthiness test of
    line 77 fails and the Tijuana URL of the fallback branch is chosen. *)
Theorem zero_coordinate_falls_back (q : query) :
  PrimFloat.eqb (hotel_lat q) 0 = true \/ PrimFloat.eqb (hotel_lon q) 0 = true ->
  in_mexico q = false /\
  resolve_url q = URL_TIJUANA /\
  resolve_url q <> search_url q.
Proof.
  intros H.
  assert (T : truthy (hotel_lat q) && truthy (hotel_lon q) = false).
  { unfold truthy. destruct H as [-> | ->]; simpl;
      [ reflexivity | apply andb_false_r ]. }
  assert (R : resolve_url q = URL_TIJUANA).
  { unfold resolve_url. rewrite T. reflexivity. }
  repeat split.
  - destruct (in_mexico q) eqn:B; [ | reflexivity ].
    destruct (in_mexico_truthy q B) as [Hlat Hlon].
    rewrite Hlat, Hlon in T. discriminate.
  - exact R.
  - rewrite R. intros E. exact (search_url_not_metro q (eq_sym E)).
Qed.

(** ** Arguments *)

(** C7. With fewer than three positional arguments, or with one of the
    three that [float] rejects, the coroutine prints [[]], returns without
    raising and issues no call to the browser stack: the line is all there
    is on the trace. *)
Theorem bad_arguments_print_empty (e : env) (argv : list string) :
  List.length argv < 4 \/
  (exists i, 1 <= i <= 3 /\ py_float (nth i argv "") = None) ->
  scrape_songkick_events e argv initial
    = (Return, {| trace := [Stdout "[]"]; browser := false |}) /\
  main e argv = {| trace := [Stdout "[]"]; browser := false |}.
Proof.
  intros H.
  assert (P : parse_args argv = None).
  { unfold parse_args. destruct (Nat.ltb_spec (List.length argv) 4) as [Hl | Hl];
      [ reflexivity | ].
    destruct H as [H | [i [Hi Hf]]]; [ lia | ].
    assert (C : i = 1 \/ i = 2 \/ i = 3) by lia.
    destruct C as [-> | [-> | ->]].
    - rewrite Hf. reflexivity.
    - rewrite Hf. destruct (py_float (nth 1 argv "")); reflexivity.
    - rewrite Hf. destruct (py_float (nth 1 argv ""));
        [ destruct (py_float (nth 2 argv "")) | ]; reflexivity. }
  unfold main, scrape_songkick_events. rewrite P. split; reflexivity.
Qed.

(** ** Selector cascade *)

Lemma first_match_skips (s : soup) (before after : list (string * list (string * string))) :
  (forall c, In c before -> find_all s (fst c) (snd c) = []) ->
  first_match s (before ++ after) = first_match s after.
Proof.
  induction before as [ | [name attrs] before IH]; intros H; [ reflexivity | ].
  simpl. pose proof (H (name, attrs) (or_introl eq_refl)) as E.
  simpl in E. rewrite E.
  apply IH. intros c Hc. apply H. right. exact Hc.
Qed.

Lemma first_match_hit (s : soup) (name : string) (attrs : list (string * string))
    (after : list (string * list (string * string))) :
  find_all s name attrs <> [] ->
  first_match s ((name, attrs) :: after) = find_all s name attrs.
Proof. simpl. destruct (find_all s name attrs); [ congruence | reflexivity ]. Qed.

Lemma json_output_empty : json_output [] = "[]".
Proof. unfold json_output. rewrite json_dumps_empty, json_loads_empty. reflexivity. Qed.

(** C8. The first candidate of [selectores_html] with a match gives the
    element set, whatever the later candidates would match. When no
    candidate matches, the elements whose class mentions "event" are taken;
    and when there are none of these either, the run goes on to print the
    empty array and completes normally. *)
Theorem cascade_first_match (s : soup) :
  (forall before name attrs after,
     selectores_html = (before ++ (name, attrs) :: after)%list ->
     (forall c, In c before -> find_all s (fst c) (snd c) = []) ->
     find_all s name attrs <> [] ->
     eventos_encontrados s = find_all s name attrs) /\
  ((forall c, In c selectores_html -> find_all s (fst c) (snd c) = []) ->
   eventos_encontrados s = find_all_where s "class" class_mentions_event) /\
  (eventos_encontrados s = [] ->
   forall q html st,
     BeautifulSoup html = Some s ->
     process_html q html st
       = (Normal tt, {| trace := trace st ++ [Stdout "[]"]; browser := browser st |})).
Proof.
  repeat split.
  - intros before name attrs after E Hb Hn. unfold eventos_encontrados.
    rewrite E, (first_match_skips s before _ Hb), (first_match_hit s _ _ _ Hn).
    destruct (find_all s name attrs); [ congruence | reflexivity ].
  - intros H. unfold eventos_encontrados.
    rewrite <- (app_nil_r selectores_html), (first_match_skips s _ [] H).
    reflexivity.
  - intros H q html st B. unfold process_html. rewrite B, H. simpl.
    rewrite json_output_empty. reflexivity.
Qed.

(** ** Listing elements *)

Lemma in_eventos (q : query) (lis : list tag) (ev : pyval) :
  In ev (eventos q lis) <-> exists li, In li lis /\ process q li = Appended ev.
Proof.
  unfold eventos. rewrite in_flat_map. split.
  - intros [li [Hli Hev]]. exists li. split; [ exact Hli | ].
    destruct (process q li); simpl in Hev; try contradiction.
    destruct Hev as [-> | []]. reflexivity.
  - intros [li [Hli Hev]]. exists li. split; [ exact Hli | ].
    rewrite Hev. left. reflexivity.
Qed.

Lemma eventos_app (q : query) (before after : list tag) :
  eventos q (before ++ after) = (eventos q before ++ eventos q after)%list.
Proof. unfold eventos. apply flat_map_app. Qed.

Lemma process_appended (q : query) (li : tag) (ev : pyval) :
  process q li = Appended ev ->
  exists lat lon d,
    coordinates li = (lat, lon) /\ is_None lat = false /\ is_None lon = false /\
    geodesic (hotel_lat q, hotel_lon q) (lat, lon) = Some d /\
    gt d (radius_km q) = false /\
    ev = PDict [ ("nombre", PStr (nombre_of li));
                 ("fecha", PStr (fecha_of li));
                 ("lugar", PStr (lugar_of li));
                 ("enlace", PStr (enlace_of li));
                 ("latitude", lat);
                 ("longitude", lon);
                 ("distance_km", PFloat (py_round d 2)) ].
Proof.
  unfold process. destruct (coordinates li) as [lat lon].
  destruct (is_None lat) eqn:Hlat; [ discriminate | ].
  destruct (is_None lon) eqn:Hlon; [ discriminate | ]. simpl.
  destruct (geodesic _ _) as [d | ] eqn:Hd; [ | discriminate ].
  destruct (gt d (radius_km q)) eqn:Hr; [ discriminate | ].
  intros [= <-]. exists lat, lon, d. repeat split; assumption.
Qed.

Lemma length_take (n : nat) (s : string) :
  String.length (take n s) = Nat.min n (String.length s).
Proof.
  unfold take. revert s.
  induction n as [ | n IH]; intros [ | c s]; simpl; auto.
Qed.

Lemma prefix_take (n : nat) (s : string) : String.prefix (take n s) s = true.
Proof.
  unfold take. revert s.
  induction n as [ | n IH]; intros [ | c s]; simpl; auto.
  rewrite IH. destruct (Ascii.ascii_dec c c); congruence.
Qed.

Lemma prefix_refl (s : string) : String.prefix s s = true.
Proof.
  induction s as [ | c s IH]; simpl; auto.
  rewrite IH. destruct (Ascii.ascii_dec c c); congruence.
Qed.

(** C3, amended. An element whose latitude or longitude is unset is dropped
    before any distance is computed. Coordinates of any other kind are
    handed to [geodesic] as they are, and the element is dropped when that
    call raises. For every emitted record the call returned a distance that
    is not greater than [radius_km] (at most [radius_km], unless one of the
    two is NaN); the record carries that distance rounded to 2 decimals and
    the coordinates as they were read. *)
Theorem located_and_within_radius (q : query) (lis : list tag) :
  (forall li,
     fst (coordinates li) = PNone \/ snd (coordinates li) = PNone ->
     process q li = NoCoordinates) /\
  (forall li lat lon,
     coordinates li = (lat, lon) -> lat <> PNone -> lon <> PNone ->
     geodesic (hotel_lat q, hotel_lon q) (lat, lon) = None ->
     process q li = Faulted) /\
  (forall ev,
     In ev (eventos q lis) ->
     exists li lat lon d,
       In li lis /\
       coordinates li = (lat, lon) /\ lat <> PNone /\ lon <> PNone /\
       geodesic (hotel_lat q, hotel_lon q) (lat, lon) = Some d /\
       gt d (radius_km q) = false /\
       (is_nan d = false -> is_nan (radius_km q) = false ->
        PrimFloat.leb d (radius_km q) = true) /\
       py_get ev "latitude" PNone = Some lat /\
       py_get ev "longitude" PNone = Some lon /\
       py_get ev "distance_km" PNone = Some (PFloat (py_round d 2))).
Proof.
  repeat split.
  - intros li H. unfold process. destruct (coordinates li) as [lat lon].
    simpl in H. destruct H as [-> | ->]; simpl;
      [ reflexivity | rewrite orb_true_r; reflexivity ].
  - intros li lat lon C Hlat Hlon G. unfold process. rewrite C, G.
    destruct lat; try congruence; destruct lon; try congruence; reflexivity.
  - intros ev H. apply in_eventos in H. destruct H as [li [Hli P]].
    destruct (process_appended q li ev P)
      as [lat [lon [d [C [Hlat [Hlon [G [R ->]]]]]]]].
    exists li, lat, lon, d. repeat split; try assumption; try reflexivity.
    + intros ->. discriminate.
    + intros ->. discriminate.
    + intros Nd Nr. apply not_gt_le; assumption.
Qed.

(** C4, amended. The script has no distance function of its own: line 373
    calls [geodesic] inside the per-element [try]. When that call raises,
    no distance (0.0 or other) is attached: the element is skipped and the
    loop goes on with the elements that follow, so the fault does not end the
    run. *)
Theorem distance_fault_skips_element (q : query) (before after : list tag)
    (li : tag) :
  geodesic (hotel_lat q, hotel_lon q) (coordinates li) = None ->
  (process q li = NoCoordinates \/ process q li = Faulted) /\
  eventos q (before ++ li :: after) = (eventos q before ++ eventos q after)%list.
Proof.
  intros G.
  assert (P : process q li = NoCoordinates \/ process q li = Faulted).
  { unfold process. destruct (coordinates li) as [lat lon].
    destruct (is_None lat || is_None lon); [ left; reflexivity | ].
    rewrite G. right. reflexivity. }
  split; [ exact P | ].
  rewrite eventos_app. f_equal. unfold eventos. simpl.
  destruct P as [-> | ->]; reflexivity.
Qed.

(** C5, amended. Every emitted record is a dict with exactly the keys
    nombre, fecha, lugar, enlace, latitude, longitude and distance_km, in
    this order; enlace is the base URL followed by the href of the element's
    event link, or the empty string when there is no such link or it has no
    href. *)
Theorem evento_fields (q : query) (lis : list tag) (ev : pyval) :
  In ev (eventos q lis) ->
  keys ev = [ "nombre"; "fecha"; "lugar"; "enlace"; "latitude"; "longitude";
              "distance_km" ] /\
  exists li,
    In li lis /\
    py_get ev "nombre" PNone = Some (PStr (nombre_of li)) /\
    py_get ev "lugar" PNone = Some (PStr (lugar_of li)) /\
    py_get ev "enlace" PNone = Some (PStr (enlace_of li)) /\
    (forall event_link href,
       find li "a" [("class", "event-link")] = Some event_link ->
       attr event_link "href" = Some href ->
       enlace_of li = "https://www.songkick.com" ++ href) /\
    (forall event_link,
       find li "a" [("class", "event-link")] = Some event_link ->
       attr event_link "href" = None ->
       enlace_of li = "") /\
    (find li "a" [("class", "event-link")] = None -> enlace_of li = "").
Proof.
  intros H. apply in_eventos in H. destruct H as [li [Hli P]].
  destruct (process_appended q li ev P) as [lat [lon [d [_ [_ [_ [_ [_ ->]]]]]]]].
  split; [ reflexivity | ].
  exists li. repeat split; try assumption.
  - intros a href F A. unfold enlace_of. rewrite F, A. reflexivity.
  - intros a F A. unfold enlace_of. rewrite F, A. reflexivity.
  - intros F. unfold enlace_of. rewrite F. reflexivity.
Qed.

(** C6, amended. The date of an emitted record is the datetime attribute of
    the element's time tag when there is one, else the element's title
    (the empty string without a title), cut to its first 10 characters when
    longer. It has at most 10 characters, and exactly 10 when the value it
    was cut from has 10 or more; its format is not checked. *)
Theorem fecha_truncated (q : query) (lis : list tag) (ev : pyval) :
  In ev (eventos q lis) ->
  exists li,
    In li lis /\
    py_get ev "fecha" PNone = Some (PStr (fecha_of li)) /\
    (forall time_tag datetime,
       find li "time" [] = Some time_tag ->
       attr time_tag "datetime" = Some datetime ->
       fecha_raw li = datetime) /\
    (find li "time" [] = None \/
     (exists time_tag,
        find li "time" [] = Some time_tag /\ attr time_tag "datetime" = None) ->
     fecha_raw li = match attr li "title" with Some t => t | None => "" end) /\
    (String.length (fecha_raw li) <= 10 -> fecha_of li = fecha_raw li) /\
    (10 < String.length (fecha_raw li) -> fecha_of li = take 10 (fecha_raw li)) /\
    String.prefix (fecha_of li) (fecha_raw li) = true /\
    String.length (fecha_of li) <= 10 /\
    (10 <= String.length (fecha_raw li) -> String.length (fecha_of li) = 10).
Proof.
  intros H. apply in_eventos in H. destruct H as [li [Hli P]].
  destruct (process_appended q li ev P) as [lat [lon [d [_ [_ [_ [_ [_ ->]]]]]]]].
  exists li. unfold fecha_of.
  assert (T : forall time_tag datetime,
             find li "time" [] = Some time_tag ->
             attr time_tag "datetime" = Some datetime ->
             fecha_raw li = datetime).
  { intros t d' F A. unfold fecha_raw. rewrite F, A. reflexivity. }
  assert (U : find li "time" [] = None \/
              (exists time_tag,
                 find li "time" [] = Some time_tag /\
                 attr time_tag "datetime" = None) ->
              fecha_raw li = match attr li "title" with Some t => t | None => "" end).
  { intros [F | [t [F A]]]; unfold fecha_raw, title_of; rewrite F;
      try rewrite A; reflexivity. }
  destruct (Nat.ltb_spec 10 (String.length (fecha_raw li))) as [Hl | Hl];
    repeat split; try assumption; try reflexivity; try lia;
    try apply prefix_take; try apply prefix_refl;
    rewrite length_take; lia.
Qed.

(** ** Standard output *)

Lemma scrape_with_arguments (e : env) (argv : list string) (q : query) :
  parse_args argv = Some q ->
  scrape_songkick_events e argv initial =
    let (c, st) :=
      playwright e (resolve_url q) {| trace := [EnsureBrowsers]; browser := false |} in
    match c with
    | Normal html => process_html q html st
    | Return => (Return, st)
    | Raise ex => (Raise ex, st)
    end.
Proof. intros A. unfold scrape_songkick_events. rewrite A. reflexivity. Qed.

Lemma stdout_app (a b : list event) : stdout (a ++ b) = (stdout a ++ stdout b)%list.
Proof. unfold stdout. apply flat_map_app. Qed.

Lemma silent_ret {A} (a : A) : silent (ret a).
Proof.
  intros st. exists []. simpl. rewrite app_nil_r.
  repeat split; discriminate.
Qed.

Lemma silent_raise {A} (ex : exn) : silent (A := A) (raise ex).
Proof.
  intros st. exists []. simpl. rewrite app_nil_r.
  repeat split; discriminate.
Qed.

Lemma silent_await (ev : event) (o : outcome) : stdout [ev] = [] -> silent (await ev o).
Proof.
  intros H st. exists [ev]. unfold await, bind, record.
  destruct o; simpl; repeat split; try exact H; discriminate.
Qed.

Lemma silent_bind {A B} (c : M A) (k : A -> M B) :
  silent c -> (forall a, silent (k a)) -> silent (bind c k).
Proof.
  intros Hc Hk st. unfold bind. destruct (Hc st) as [t [T [P N]]].
  destruct (c st) as [[a | | ex] st']; simpl in *.
  - destruct (Hk a st') as [u [U [P' N']]]. exists (t ++ u)%list.
    rewrite U, T, app_assoc, stdout_app, P, P'. repeat split. exact N'.
  - congruence.
  - exists t. repeat split; try assumption. discriminate.
Qed.

Lemma silent_try_except {A} (body : M A) (handler : exn -> option (M A)) :
  silent body ->
  (forall ex h, handler ex = Some h -> silent h) ->
  silent (try_except body handler).
Proof.
  intros Hb Hh st. unfold try_except. destruct (Hb st) as [t [T [P N]]].
  destruct (body st) as [[a | | ex] st']; simpl in *.
  - exists t. repeat split; assumption.
  - congruence.
  - destruct (handler ex) as [h | ] eqn:H.
    + destruct (Hh ex h H st') as [u [U [P' N']]]. exists (t ++ u)%list.
      rewrite U, T, app_assoc, stdout_app, P, P'. repeat split. exact N'.
    + exists t. repeat split; assumption.
Qed.

Lemma silent_browser_close (e : env) : silent (browser_close e).
Proof. intros st. apply (silent_await BrowserClose). reflexivity. Qed.

Lemma silent_page_content (e : env) : silent (page_content e).
Proof.
  intros st. unfold page_content. destruct (content e _) as [o html].
  apply (silent_bind (await Content o) (fun _ => ret html)).
  - apply silent_await. reflexivity.
  - intros _. apply silent_ret.
Qed.

Lemma silent_launch_browser (e : env) (options : list (list string)) (i : nat) :
  silent (launch_browser e i options).
Proof.
  revert i. induction options as [ | o rest IH]; intros i; simpl.
  - apply silent_ret.
  - apply silent_bind.
    + apply silent_try_except.
      * apply silent_bind; [ apply silent_await; reflexivity | ].
        intros _ st. exists []. simpl. rewrite app_nil_r.
        repeat split; discriminate.
      * intros ex h H. destruct ex; try discriminate; injection H as <-.
        -- apply silent_ret.
        -- destruct rest; [ apply silent_raise | apply silent_ret ].
    + intros [ | ]; [ apply silent_ret | apply IH ].
Qed.

Lemma silent_wait_for_events (e : env) (candidates : list string) :
  silent (wait_for_events e candidates).
Proof.
  induction candidates as [ | selector rest IH]; simpl.
  - apply silent_ret.
  - apply silent_bind.
    + apply silent_try_except.
      * apply silent_bind; [ apply silent_await; reflexivity | intros _; apply silent_ret ].
      * intros ex h H. destruct (is_Exception ex); try discriminate.
        injection H as <-. apply silent_ret.
    + intros [ | ]; [ apply silent_ret | apply IH ].
Qed.

Lemma gives_up_once_silent {A} (c : M A) : silent c -> gives_up_once c.
Proof.
  intros H st. destruct (H st) as [t [T [P N]]]. exists t. split; [ exact T | ].
  destruct (fst (c st)); auto. congruence.
Qed.

Lemma gives_up_once_bind {A B} (c : M A) (k : A -> M B) :
  gives_up_once c -> (forall a, gives_up_once (k a)) -> gives_up_once (bind c k).
Proof.
  intros Hc Hk st. unfold bind. destruct (Hc st) as [t [T P]].
  destruct (c st) as [[a | | ex] st']; simpl in *.
  - destruct (Hk a st') as [u [U P']]. exists (t ++ u)%list.
    rewrite U, T, app_assoc, stdout_app, P. split; [ reflexivity | exact P' ].
  - exists t. split; assumption.
  - exists t. split; assumption.
Qed.

Lemma gives_up_once_try_except {A} (body : M A) (handler : exn -> option (M A)) :
  silent body ->
  (forall ex h, handler ex = Some h -> gives_up_once h) ->
  gives_up_once (try_except body handler).
Proof.
  intros Hb Hh st. unfold try_except. destruct (Hb st) as [t [T [P N]]].
  destruct (body st) as [[a | | ex] st']; simpl in *.
  - exists t. split; assumption.
  - congruence.
  - destruct (handler ex) as [h | ] eqn:H.
    + destruct (Hh ex h H st') as [u [U P']]. exists (t ++ u)%list.
      rewrite U, T, app_assoc, stdout_app, P. split; [ reflexivity | exact P' ].
    + exists t. split; [ assumption | left; assumption ].
Qed.

Lemma gives_up_once_finally {A} (body : M A) (cleanup : M unit) :
  gives_up_once body -> silent cleanup -> gives_up_once (finally body cleanup).
Proof.
  intros Hb Hc st. unfold finally. destruct (Hb st) as [t [T P]].
  destruct (body st) as [r st']. simpl in *.
  destruct (Hc st') as [u [U [P' N']]].
  destruct (cleanup st') as [[[] | | ex] st'']; simpl in *;
    exists (t ++ u)%list; rewrite U, T, app_assoc, stdout_app, P', app_nil_r;
    (split; [ reflexivity | ]); try congruence.
  destruct r; auto.
Qed.

Lemma gives_up_once_close_and_give_up {A} (e : env) :
  gives_up_once (A := A) (close_and_give_up e).
Proof.
  intros st. unfold close_and_give_up, browser_close, await, bind, record, print,
    return_, record.
  destruct (close e _); simpl.
  - exists [BrowserClose; Stdout "[]"]. rewrite <- app_assoc. split; reflexivity.
  - exists [BrowserClose]. split; [ reflexivity | left; reflexivity ].
  - exists [BrowserClose]. split; [ reflexivity | left; reflexivity ].
  - exists [BrowserClose]. split; [ reflexivity | left; reflexivity ].
Qed.

Lemma gives_up_once_session (e : env) (url : string) : gives_up_once (session e url).
Proof.
  unfold session.
  apply gives_up_once_bind;
    [ apply gives_up_once_silent, silent_launch_browser | intros _ ].
  apply gives_up_once_bind.
  { apply gives_up_once_silent. intros st.
    destruct (browser st); [ apply silent_ret | apply silent_raise ]. }
  intros _.
  do 3 (apply gives_up_once_bind;
        [ apply gives_up_once_silent, silent_await; reflexivity | intros _ ]).
  apply gives_up_once_bind.
  { unfold navigate. apply gives_up_once_try_except.
    - apply silent_bind; [ | intros _ ]; apply silent_await; reflexivity.
    - intros ex h H.
      destruct ex; try discriminate; injection H as <-;
        apply gives_up_once_close_and_give_up. }
  intros _.
  apply gives_up_once_bind;
    [ apply gives_up_once_silent, silent_wait_for_events | intros _ ].
  apply gives_up_once_bind;
    [ apply gives_up_once_silent, silent_page_content | intros html ].
  destruct (Nat.ltb _ _); [ apply gives_up_once_close_and_give_up | ].
  destruct (bloqueada html); [ apply gives_up_once_close_and_give_up | ].
  apply gives_up_once_finally; [ | apply silent_browser_close ].
  apply gives_up_once_try_except; [ apply silent_page_content | ].
  intros ex h H.
  destruct ex; try discriminate; injection H as <-;
    apply gives_up_once_close_and_give_up.
Qed.

(** The [try] around the browser session prints nothing when it hands the
    page over, [[]] once or twice when it returns, and at most [[]] once
    when the cancellation leaves it. *)
Lemma playwright_lines (e : env) (url : string) :
  adds (playwright e url)
    (fun r lines =>
       match r with
       | Normal _ => lines = []
       | Return => lines = [ "[]" ] \/ lines = [ "[]"; "[]" ]
       | Raise ex => ex = CancelledError /\ (lines = [] \/ lines = [ "[]" ])
       end).
Proof.
  assert (B : gives_up_once
                (async_with (await PlaywrightStart (playwright_start e))
                   (await PlaywrightStop (playwright_stop e)) (session e url))).
  { unfold async_with.
    apply gives_up_once_bind;
      [ apply gives_up_once_silent, silent_await; reflexivity | intros _ ].
    apply gives_up_once_finally;
      [ apply gives_up_once_session | apply silent_await; reflexivity ]. }
  intros st. unfold playwright, try_except. destruct (B st) as [t [T P]].
  destruct (async_with _ _ _ st) as [[html | | ex] st']; simpl in *.
  - exists t. split; assumption.
  - exists t. split; [ assumption | left; assumption ].
  - destruct ex; simpl.
    2: { exists t. split; [ assumption | split; [ reflexivity | assumption ] ]. }
    all: unfold on_playwright_error, bind, try_except, browser_close, await, bind,
           record, print, record, return_, ret, raise;
         destruct (browser st'); simpl;
         try (destruct (close e _); simpl);
         first
           [ exists (t ++ [BrowserClose; Stdout "[]"])%list;
             split; [ rewrite T, <- !app_assoc; reflexivity | ]
           | exists (t ++ [Stdout "[]"])%list;
             split; [ rewrite T, <- !app_assoc; reflexivity | ] ];
         rewrite stdout_app; simpl;
         destruct P as [-> | ->]; simpl; auto.
Qed.

Lemma json_output_checked (evs : list pyval) :
  json_output evs = "[]" \/
  (json_dumps (PList evs) = Some (json_output evs) /\
   exists v, json_loads (json_output evs) = Some v).
Proof.
  unfold json_output. destruct (json_dumps (PList evs)) as [text | ] eqn:D; auto.
  destruct (json_loads text) as [v | ] eqn:P; auto.
  right. split; [ reflexivity | exists v; exact P ].
Qed.

(** X1: standard output after a run holds one line or two, whatever the
    arguments are and however the awaited calls end. A first line other
    than [[]] is the serialised list of events, which [json.loads] has
    accepted, and is the only line; a second line is [[]] after [[]]. *)
Theorem run_prints_one_or_two_lines (e : env) (argv : list string) :
  stdout (trace (main e argv)) = [ "[]" ] \/
  stdout (trace (main e argv)) = [ "[]"; "[]" ] \/
  exists q s,
    parse_args argv = Some q /\
    stdout (trace (main e argv)) = [ json_output (eventos q (eventos_encontrados s)) ].
Proof.
  unfold main. destruct (parse_args argv) as [q | ] eqn:A.
  2: { unfold scrape_songkick_events. rewrite A. left. reflexivity. }
  rewrite (scrape_with_arguments e argv q A).
  destruct (playwright_lines e (resolve_url q)
              {| trace := [EnsureBrowsers]; browser := false |}) as [t [T P]].
  destruct (playwright e (resolve_url q) _) as [[html | | ex] st]; simpl in *.
  - unfold process_html. destruct (BeautifulSoup html) as [s | ]; simpl.
    + right. right. exists q, s. split; [ reflexivity | ].
      rewrite T. simpl. rewrite stdout_app, P. reflexivity.
    + left. rewrite T. simpl. rewrite stdout_app, P. reflexivity.
  - rewrite T. simpl. destruct P as [-> | ->]; auto.
  - rewrite T. simpl. rewrite stdout_app. simpl.
    destruct P as [_ [-> | ->]]; auto.
Qed.

(** ** Browser lifecycle *)

Lemma extends_refl (st : state) : extends st st.
Proof. exists []. symmetry. apply app_nil_r. Qed.

Lemma extends_trans (a b c : state) : extends a b -> extends b c -> extends a c.
Proof.
  intros [t Ht] [u Hu]. exists (t ++ u)%list.
  rewrite Hu, Ht, app_assoc. reflexivity.
Qed.

Lemma issued_extends (ev : event) (a b : state) :
  extends a b -> issued ev a -> issued ev b.
Proof.
  unfold issued. intros [t Ht] H. rewrite Ht. apply in_or_app. left. exact H.
Qed.

Lemma extends_record (ev : event) (st : state) (b : bool) :
  extends st {| trace := trace st ++ [ev]; browser := b |}.
Proof. exists [ev]. reflexivity. Qed.

Lemma issued_record (ev : event) (st : state) (b : bool) :
  issued ev {| trace := trace st ++ [ev]; browser := b |}.
Proof. unfold issued. simpl. apply in_or_app. right. left. reflexivity. Qed.

Lemma cbl_weaken {A} (b : bool) (c : M A) :
  closes_before_leaving true c -> closes_before_leaving b c.
Proof.
  intros H st. destruct (H st) as [E P]. split; [ exact E | ].
  destruct (fst (c st)); auto.
Qed.

Lemma cbl_ret {A} (a : A) : closes_before_leaving false (ret a).
Proof. intros st. split; [ apply extends_refl | simpl; discriminate ]. Qed.

Lemma cbl_raise {A} (ex : exn) : closes_before_leaving (A := A) true (raise ex).
Proof. intros st. split; [ apply extends_refl | exact I ]. Qed.

Lemma cbl_await (ev : event) (o : outcome) : closes_before_leaving false (await ev o).
Proof.
  intros st. unfold await, bind, record.
  destruct o; simpl; (split; [ apply extends_record | auto; discriminate ]).
Qed.

Lemma cbl_bind {A B} (b : bool) (c : M A) (k : A -> M B) :
  closes_before_leaving false c ->
  (forall a, closes_before_leaving b (k a)) ->
  closes_before_leaving b (bind c k).
Proof.
  intros Hc Hk st. unfold bind. specialize (Hc st).
  destruct (c st) as [[a | | ex] st']; simpl in Hc; destruct Hc as [E P].
  - destruct (Hk a st') as [E' P']. split; [ eapply extends_trans; eassumption | exact P' ].
  - simpl. split; assumption.
  - simpl. split; [ assumption | exact I ].
Qed.

Lemma cbl_try_except {A} (b : bool) (body : M A) (handler : exn -> option (M A)) :
  closes_before_leaving b body ->
  (forall ex h, handler ex = Some h -> closes_before_leaving b h) ->
  closes_before_leaving b (try_except body handler).
Proof.
  intros Hb Hh st. unfold try_except. specialize (Hb st).
  destruct (body st) as [[a | | ex] st']; simpl in Hb; destruct Hb as [E P];
    try (simpl; split; assumption).
  destruct (handler ex) as [h | ] eqn:H.
  - destruct (Hh ex h H st') as [E' P'].
    split; [ eapply extends_trans; eassumption | exact P' ].
  - simpl. split; [ assumption | exact I ].
Qed.

Lemma cbl_browser_close (e : env) : closes_before_leaving true (browser_close e).
Proof.
  intros st. unfold browser_close, await, bind, record.
  destruct (close e _); simpl;
    (split; [ apply extends_record | try exact I; intros _; apply issued_record ]).
Qed.

Lemma cbl_close_and_give_up {A} (e : env) :
  closes_before_leaving (A := A) true (close_and_give_up e).
Proof.
  intros st. unfold close_and_give_up, browser_close, await, bind, record, print,
    return_, record.
  destruct (close e _); simpl; (split; [ | try exact I ]).
  - exists [BrowserClose; Stdout "[]"]. rewrite <- app_assoc. reflexivity.
  - unfold issued. simpl. rewrite <- app_assoc. apply in_or_app. right. left. reflexivity.
  - apply extends_record.
  - apply extends_record.
  - apply extends_record.
Qed.

Lemma cbl_finally_close {A} (b : bool) (e : env) (body : M A) :
  closes_before_leaving b body ->
  closes_before_leaving true (finally body (browser_close e)).
Proof.
  intros Hb st. unfold finally. destruct (Hb st) as [E _].
  destruct (body st) as [r st']. simpl in E.
  destruct (cbl_browser_close e st') as [E' P'].
  assert (I' : issued BrowserClose (snd (browser_close e st'))).
  { unfold browser_close, await, bind, record.
    destruct (close e _); simpl; apply issued_record. }
  destruct (browser_close e st') as [[[] | | ex] st'']; simpl in *.
  - split; [ eapply extends_trans; eassumption | ].
    destruct r; auto.
  - split; [ eapply extends_trans; eassumption | assumption ].
  - split; [ eapply extends_trans; eassumption | exact I ].
Qed.

Lemma cbl_launch_browser (e : env) (options : list (list string)) (i : nat) :
  closes_before_leaving false (launch_browser e i options).
Proof.
  revert i. induction options as [ | o rest IH]; intros i; simpl.
  - apply cbl_ret.
  - apply cbl_bind.
    + apply cbl_try_except.
      * apply cbl_bind; [ apply cbl_await | ].
        intros _ st. split; [ exists []; simpl; symmetry; apply app_nil_r | simpl; discriminate ].
      * intros ex h H. destruct ex; try discriminate; injection H as <-.
        -- apply cbl_ret.
        -- destruct rest; [ apply cbl_weaken, cbl_raise | apply cbl_ret ].
    + intros [ | ]; [ apply cbl_ret | apply IH ].
Qed.

Lemma cbl_wait_for_events (e : env) (candidates : list string) :
  closes_before_leaving false (wait_for_events e candidates).
Proof.
  induction candidates as [ | selector rest IH]; simpl.
  - apply cbl_ret.
  - apply cbl_bind.
    + apply cbl_try_except.
      * apply cbl_bind; [ apply cbl_await | intros _; apply cbl_ret ].
      * intros ex h H. destruct (is_Exception ex); try discriminate.
        injection H as <-. apply cbl_ret.
    + intros [ | ]; [ apply cbl_ret | apply IH ].
Qed.

Lemma cbl_page_content (e : env) : closes_before_leaving false (page_content e).
Proof.
  intros st. unfold page_content.
  destruct (content e _) as [o html].
  apply (cbl_bind false (await Content o) (fun _ => ret html)).
  - apply cbl_await.
  - intros _. apply cbl_ret.
Qed.

Lemma cbl_navigate (e : env) (url : string) : closes_before_leaving false (navigate e url).
Proof.
  unfold navigate. apply cbl_try_except.
  - apply cbl_bind; [ apply cbl_await | intros _; apply cbl_await ].
  - intros ex h H.
    destruct ex; try discriminate; injection H as <-;
      apply cbl_weaken, cbl_close_and_give_up.
Qed.

(** The session does not end, by falling through or by [return], before
    [browser.close()] has been called. *)
Lemma cbl_session (e : env) (url : string) : closes_before_leaving true (session e url).
Proof.
  unfold session.
  apply cbl_bind; [ apply cbl_launch_browser | intros _ ].
  apply cbl_bind.
  { intros st. destruct (browser st); [ apply cbl_ret | apply (cbl_weaken false), cbl_raise ]. }
  intros _.
  apply cbl_bind; [ apply cbl_await | intros _ ].
  apply cbl_bind; [ apply cbl_await | intros _ ].
  apply cbl_bind; [ apply cbl_await | intros _ ].
  apply cbl_bind; [ apply cbl_navigate | intros _ ].
  apply cbl_bind; [ apply cbl_wait_for_events | intros _ ].
  apply cbl_bind; [ apply cbl_page_content | intros html ].
  destruct (Nat.ltb _ _); [ apply cbl_close_and_give_up | ].
  destruct (bloqueada html); [ apply cbl_close_and_give_up | ].
  apply (cbl_finally_close false). apply cbl_try_except.
  - apply cbl_page_content.
  - intros ex h H.
    destruct ex; try discriminate; injection H as <-;
      apply cbl_weaken, cbl_close_and_give_up.
Qed.

Ltac in_trace :=
  unfold issued in *; simpl in *; rewrite ?in_app_iff in *; simpl; tauto.

Lemma playwright_released (e : env) (url : string) (st : state) :
  browser st = false ->
  browser (snd (playwright e url st)) = true ->
  issued PlaywrightStop (snd (playwright e url st)) /\
  (fst (playwright e url st) <> Raise CancelledError ->
   issued BrowserClose (snd (playwright e url st))).
Proof.
  intros B0. unfold playwright, try_except, async_with, bind, await, record.
  destruct (playwright_start e); simpl.
  2-4: unfold on_playwright_error, bind; simpl; rewrite ?B0; simpl; discriminate.
  unfold finally.
  match goal with
  | |- context [session e url ?s] =>
      pose proof (cbl_session e url s) as S;
      destruct (session e url s) as [r st2]
  end.
  simpl in S. destruct S as [_ C].
  unfold on_playwright_error, bind, record, browser_close, try_except, await,
    bind, record, print, record, return_, ret, raise.
  destruct (playwright_stop e), r as [html | | ex]; simpl;
    try destruct ex; simpl;
    try (destruct (browser st2) eqn:B2; simpl; try discriminate);
    try (destruct (close e _); simpl);
    intros _; (split; [ | intros N ]); try congruence; in_trace.
Qed.

Lemma process_html_extends (q : query) (html : string) (st : state) :
  extends st (snd (process_html q html st)) /\
  browser (snd (process_html q html st)) = browser st.
Proof.
  unfold process_html. destruct (BeautifulSoup html); simpl;
    (split; [ apply extends_record | reflexivity ]).
Qed.

(** C9, amended. A run that has acquired a browser has called
    [browser.close()] by the time it ends, on every path that does not end
    by cancellation: content retrieved, navigation timeout or error,
    rejected page, content-retrieval timeout, and any [Exception] raised
    after the launch. On every path, cancellation by the global timeout
    included, the exit of the [async with async_playwright()] block has
    been entered. Nothing more holds of a run that ends by cancellation:
    [browser.close()] need not have been called, and the exit of the block,
    a suspension point itself, need not have completed. *)
Theorem browser_closed_unless_cancelled (e : env) (argv : list string) :
  browser (snd (scrape_songkick_events e argv initial)) = true ->
  issued PlaywrightStop (snd (scrape_songkick_events e argv initial)) /\
  (fst (scrape_songkick_events e argv initial) <> Raise CancelledError ->
   issued BrowserClose (snd (scrape_songkick_events e argv initial))).
Proof.
  destruct (parse_args argv) as [q | ] eqn:A.
  2: { unfold scrape_songkick_events. rewrite A. discriminate. }
  rewrite (scrape_with_arguments e argv q A).
  pose proof (playwright_released e (resolve_url q)
                {| trace := [EnsureBrowsers]; browser := false |} eq_refl) as P.
  destruct (playwright e (resolve_url q) _) as [[html | | ex] st]; simpl in *.
  2-3: intros H; destruct (P H) as [P1 P2]; (split; [ exact P1 | ]);
       intros N; apply P2; intros E; apply N; congruence.
  pose proof (process_html_extends q html st) as [X B].
  destruct (process_html q html st) as [r st']. simpl in *.
  rewrite B. intros H. destruct (P H) as [P1 P2].
  split; [ | intros _ ]; eapply issued_extends; try eassumption.
  apply P2. discriminate.
Qed.



(** ** Text matching *)

Lemma prefix_append (a b : string) :
  String.prefix a b = true <-> exists after, b = a ++ after.
Proof.
  revert b. induction a as [ | c a IH]; intros b.
  - split; [ intros _; exists b; reflexivity | intros _; destruct b; reflexivity ].
  - destruct b as [ | d b]; simpl.
    + split; [ discriminate | intros [after H]; discriminate ].
    + destruct (ascii_dec c d) as [-> | N].
      * rewrite IH. split; intros [after H]; exists after; congruence.
      * split; [ discriminate | intros [after H]; congruence ].
Qed.

Lemma contains_unfold (needle hay : string) :
  contains needle hay =
    if String.prefix needle hay then true
    else match hay with
         | EmptyString => false
         | String _ rest => contains needle rest
         end.
Proof. destruct hay; reflexivity. Qed.

(** [needle in hay] holds exactly when [needle] occurs in [hay]. *)
Lemma contains_occurrence (needle hay : string) :
  contains needle hay = true <-> exists before after, hay = before ++ needle ++ after.
Proof.
  induction hay as [ | c hay IH]; rewrite contains_unfold;
    destruct (String.prefix needle _) eqn:P.
  - split; [ intros _ | reflexivity ].
    apply prefix_append in P. destruct P as [after P]. exists "", after. exact P.
  - split; [ discriminate | ].
    intros [before [after H]]. destruct before; [ | discriminate ].
    rewrite <- P. apply prefix_append. exists after. exact H.
  - split; [ intros _ | reflexivity ].
    apply prefix_append in P. destruct P as [after P]. exists "", after. exact P.
  - rewrite IH. split.
    + intros [before [after H]]. exists (String c before), after. simpl. congruence.
    + intros [before [after H]]. destruct before as [ | d before]; simpl in H.
      * assert (Q : String.prefix needle (String c hay) = true)
          by (apply prefix_append; exists after; exact H).
        congruence.
      * exists before, after. congruence.
Qed.

Lemma lower_append (a b : string) : lower (a ++ b) = lower a ++ lower b.
Proof. induction a as [ | c a IH]; simpl; [ reflexivity | rewrite IH; reflexivity ]. Qed.

(** X6: the check of lines 257-263 rejects a page exactly when its
    lower-cased text contains captcha, access denied, forbidden or blocked;
    so a page that contains one of them in any letter case is rejected,
    wherever the word stands. *)
Theorem blocked_page_words (html : string) :
  (bloqueada html = true <->
   exists problema before after,
     In problema contenido_bloqueado /\ lower html = before ++ problema ++ after) /\
  (forall before word after,
     In (lower word) contenido_bloqueado ->
     bloqueada (before ++ word ++ after) = true).
Proof.
  assert (A : forall h, bloqueada h = true <->
                exists problema before after,
                  In problema contenido_bloqueado /\ lower h = before ++ problema ++ after).
  { intros h. unfold bloqueada. rewrite existsb_exists. split.
    - intros [problema [I C]]. apply contains_occurrence in C.
      destruct C as [before [after C]]. exists problema, before, after. auto.
    - intros [problema [before [after [I C]]]]. exists problema. split; [ exact I | ].
      apply contains_occurrence. exists before, after. exact C. }
  split; [ apply A | ].
  intros before word after I. apply A.
  exists (lower word), (lower before), (lower after). split; [ exact I | ].
  rewrite !lower_append. reflexivity.
Qed.

(** X11: the generic search of line 326 accepts an element exactly when it
    has a class attribute whose lower-cased value contains event; an
    element without the attribute is not accepted. *)
Theorem generic_fallback_class (x : option string) :
  class_mentions_event x = true <->
  exists c before after, x = Some c /\ lower c = before ++ "event" ++ after.
Proof.
  unfold class_mentions_event. destruct x as [c | ].
  - split.
    + intros H. apply andb_prop in H. destruct H as [_ H].
      apply contains_occurrence in H. destruct H as [before [after H]].
      exists c, before, after. auto.
    + intros [c' [before [after [E H]]]]. injection E as <-.
      apply andb_true_intro. split.
      * destruct c; [ destruct before; discriminate | reflexivity ].
      * apply contains_occurrence. exists before, after. exact H.
  - split; [ discriminate | intros [c [before [after [E _]]]]; discriminate ].
Qed.

(** ** Arguments and linked data *)

(** X2: the arguments are accepted exactly when [sys.argv] holds the
    script name and at least three more entries, the first three of which
    [float] converts; they become latitude, longitude and radius in that
    order, and entries after the third are not read. *)
Theorem parse_args_reads_three (argv : list string) (q : query) :
  parse_args argv = Some q <->
  exists script lat lon radius more,
    argv = script :: lat :: lon :: radius :: more /\
    py_float lat = Some (hotel_lat q) /\
    py_float lon = Some (hotel_lon q) /\
    py_float radius = Some (radius_km q).
Proof.
  unfold parse_args. split.
  - destruct argv as [ | script [ | lat [ | lon [ | radius more]]]]; try discriminate.
    simpl.
    destruct (py_float lat) as [a | ] eqn:A; [ | discriminate ].
    destruct (py_float lon) as [b | ] eqn:B; [ | discriminate ].
    destruct (py_float radius) as [c | ] eqn:C; [ | discriminate ].
    intros H. injection H as <-. exists script, lat, lon, radius, more. auto.
  - intros [script [lat [lon [radius [more [-> [A [B C]]]]]]]]. simpl.
    rewrite A, B, C. destruct q; reflexivity.
Qed.

(** X12: lines 361-366 give coordinates other than [None] exactly when the
    payload, or the first item of a payload that is a list, is a dict whose
    [location] is a dict whose [geo] is a dict with those values under
    [latitude] and [longitude]. *)
Theorem coordinates_need_location_geo (data lat lon : pyval) :
  lat <> PNone -> lon <> PNone ->
  (geo_of data = Some (lat, lon) <->
   exists entries location geo,
     (data = PDict entries \/ exists more, data = PList (PDict entries :: more)) /\
     lookup "location" entries = Some (PDict location) /\
     lookup "geo" location = Some (PDict geo) /\
     lookup "latitude" geo = Some lat /\
     lookup "longitude" geo = Some lon).
Proof.
  intros A B.
  assert (D : forall entries,
            match py_get (PDict entries) "location" (PDict []) with
            | None => None
            | Some location =>
                match py_get location "geo" (PDict []) with
                | None => None
                | Some geo =>
                    match py_get geo "latitude" PNone, py_get geo "longitude" PNone with
                    | Some lat, Some lon => Some (lat, lon)
                    | _, _ => None
                    end
                end
            end = Some (lat, lon) <->
            exists location geo,
              lookup "location" entries = Some (PDict location) /\
              lookup "geo" location = Some (PDict geo) /\
              lookup "latitude" geo = Some lat /\
              lookup "longitude" geo = Some lon).
  { intros entries. simpl. split.
    - destruct (lookup "location" entries) as [[ | | | | | | location] | ]; simpl;
        try discriminate.
      + destruct (lookup "geo" location) as [[ | | | | | | geo] | ] eqn:G; simpl;
          try discriminate.
        * destruct (lookup "latitude" geo) as [a | ] eqn:P,
            (lookup "longitude" geo) as [b | ] eqn:Q;
            intros H; injection H as <- <-; try congruence.
          exists location, geo. auto.
        * intros H. injection H as <- <-. congruence.
      + intros H. injection H as <- <-. congruence.
    - intros [location [geo [P [G [Q R]]]]]. rewrite P. simpl. rewrite G. simpl.
      rewrite Q, R. reflexivity. }
  unfold geo_of. split.
  - destruct data as [ | | | | | [ | first more] | entries]; simpl; try discriminate.
    + destruct first as [ | | | | | | entries]; simpl; try discriminate.
      intros H. apply (D entries) in H. destruct H as [location [geo H]].
      exists entries, location, geo. split; [ right; exists more; reflexivity | exact H ].
    + intros H. apply (D entries) in H. destruct H as [location [geo H]].
      exists entries, location, geo. split; [ left; reflexivity | exact H ].
  - intros [entries [location [geo [[-> | [more ->]] H]]]];
      apply (D entries); exists location, geo; exact H.
Qed.

(** ** The launch loop and the selector loop *)

(** X3: the loop of lines 134-150 tries the three launch configurations
    in order, each at most once. It goes on after a timeout or an
    exception and stops at the first configuration that launches, which
    sets [browser], or at a cancellation. An exception of the third
    configuration leaves the loop as an exception; a timeout of the third
    falls through with [browser] unset. *)
Theorem launch_attempts_in_order (e : env) (st : state) :
  exists n,
    1 <= n <= 3 /\
    trace (snd (launch_browser e 0 launch_options st))
      = (trace st ++ map Launch (seq 0 n))%list /\
    (forall i, i < n - 1 -> missed (launch e i)) /\
    (missed (launch e (n - 1)) -> n = 3) /\
    fst (launch_browser e 0 launch_options st)
      = match launch e (n - 1) with
        | Done | TimedOut => Normal tt
        | Failed => Raise Exception
        | Cancelled => Raise CancelledError
        end /\
    browser (snd (launch_browser e 0 launch_options st))
      = match launch e (n - 1) with Done => true | _ => browser st end.
Proof.
  unfold launch_options, launch_browser, try_except, await, bind, record, ret, raise,
    missed.
  destruct (launch e 0) eqn:E0; simpl.
  1, 4: exists 1; simpl; rewrite E0, <- ?app_assoc; simpl;
    repeat split; try lia; intros [H | H]; discriminate.
  all: destruct (launch e 1) eqn:E1; simpl.
  1, 4, 5, 8: exists 2; simpl; rewrite E1, <- ?app_assoc; simpl;
    repeat split; try lia;
    try (intros i H; assert (i = 0) as -> by lia; rewrite E0; auto);
    intros [H | H]; discriminate.
  all: destruct (launch e 2) eqn:E2; simpl.
  all: exists 3; simpl; rewrite E2, <- ?app_assoc; simpl;
    repeat split; try lia;
    intros i H; assert (i = 0 \/ i = 1) as [-> | ->] by lia;
    rewrite ?E0, ?E1; auto.
Qed.

(** X5: the loop of lines 225-240 waits for the selectors in order and
    stops at the first one found. A timeout or an exception of a wait only
    moves on to the next selector: the loop never raises an exception of
    its own and never returns, it falls through with the flag set or, after
    the last selector, unset. Only the cancellation leaves it. It does not
    touch [browser]. *)
Theorem selector_waits_are_not_fatal (e : env) (candidates : list string) (st : state) :
  exists tried rest,
    candidates = (tried ++ rest)%list /\
    trace (snd (wait_for_events e candidates st))
      = (trace st ++ map WaitForSelector tried)%list /\
    browser (snd (wait_for_events e candidates st)) = browser st /\
    ((fst (wait_for_events e candidates st) = Normal true /\
      exists earlier found,
        tried = (earlier ++ [found])%list /\
        wait_for_selector e found = Done /\
        Forall (fun s => missed (wait_for_selector e s)) earlier) \/
     (fst (wait_for_events e candidates st) = Normal false /\
      rest = [] /\
      Forall (fun s => missed (wait_for_selector e s)) tried) \/
     (fst (wait_for_events e candidates st) = Raise CancelledError /\
      exists earlier last,
        tried = (earlier ++ [last])%list /\
        wait_for_selector e last = Cancelled /\
        Forall (fun s => missed (wait_for_selector e s)) earlier)).
Proof.
  revert st. induction candidates as [ | selector rest IH]; intros st.
  - exists [], []. simpl. rewrite app_nil_r. repeat split. right. left. auto.
  - assert (N : missed (wait_for_selector e selector) ->
              exists tried rest0,
                selector :: rest = (tried ++ rest0)%list /\
                trace (snd (wait_for_events e rest (after st [WaitForSelector selector])))
                  = (trace st ++ map WaitForSelector tried)%list /\
                browser (snd (wait_for_events e rest (after st [WaitForSelector selector])))
                  = browser st /\
                ((fst (wait_for_events e rest (after st [WaitForSelector selector]))
                    = Normal true /\
                  exists earlier found,
                    tried = (earlier ++ [found])%list /\
                    wait_for_selector e found = Done /\
                    Forall (fun s => missed (wait_for_selector e s)) earlier) \/
                 (fst (wait_for_events e rest (after st [WaitForSelector selector]))
                    = Normal false /\
                  rest0 = [] /\
                  Forall (fun s => missed (wait_for_selector e s)) tried) \/
                 (fst (wait_for_events e rest (after st [WaitForSelector selector]))
                    = Raise CancelledError /\
                  exists earlier last,
                    tried = (earlier ++ [last])%list /\
                    wait_for_selector e last = Cancelled /\
                    Forall (fun s => missed (wait_for_selector e s)) earlier))).
    { intros F.
      destruct (IH (after st [WaitForSelector selector]))
        as [tried [rest0 [-> [T [B C]]]]].
      exists (selector :: tried), rest0.
      split; [ reflexivity | ].
      split; [ rewrite T; simpl; rewrite <- app_assoc; reflexivity | ].
      split; [ exact B | ].
      destruct C as [[R [earlier [found [-> [D A]]]]]
                    | [[R [-> A]] | [R [earlier [last [-> [D A]]]]]]].
      - left. split; [ exact R | ]. exists (selector :: earlier), found. auto.
      - right. left. auto.
      - right. right. split; [ exact R | ]. exists (selector :: earlier), last. auto. }
    simpl. unfold try_except, bind, await, record, ret, raise.
    destruct (wait_for_selector e selector) eqn:W; simpl.
    + exists [selector], rest. repeat split. left. split; [ reflexivity | ].
      exists [], selector. auto.
    + apply N. left. reflexivity.
    + apply N. right. reflexivity.
    + exists [selector], rest. repeat split. right. right. split; [ reflexivity | ].
      exists [], selector. auto.
Qed.

(** ** The calls of a run *)

Lemma only_ret {A} (ok : event -> Prop) (a : A) : only ok (ret a).
Proof. intros st. exists []. simpl. rewrite app_nil_r. auto. Qed.

Lemma only_raise {A} (ok : event -> Prop) (ex : exn) : only ok (A := A) (raise ex).
Proof. intros st. exists []. simpl. rewrite app_nil_r. auto. Qed.

Lemma only_return {A} (ok : event -> Prop) : only ok (A := A) return_.
Proof. intros st. exists []. simpl. rewrite app_nil_r. auto. Qed.

Lemma only_record (ok : event -> Prop) (ev : event) : ok ev -> only ok (record ev).
Proof. intros H st. exists [ev]. simpl. auto. Qed.

Lemma only_bind {A B} (ok : event -> Prop) (c : M A) (k : A -> M B) :
  only ok c -> (forall a, only ok (k a)) -> only ok (bind c k).
Proof.
  intros Hc Hk st. unfold bind. destruct (Hc st) as [t [T F]].
  destruct (c st) as [[a | | ex] st']; simpl in *.
  - destruct (Hk a st') as [u [U G]]. exists (t ++ u)%list.
    rewrite U, T, app_assoc. split; [ reflexivity | apply Forall_app; auto ].
  - exists t. auto.
  - exists t. auto.
Qed.

Lemma only_await (ok : event -> Prop) (ev : event) (o : outcome) :
  ok ev -> only ok (await ev o).
Proof.
  intros H. unfold await. apply only_bind; [ apply only_record, H | intros _ ].
  destruct o; [ apply only_ret | apply only_raise .. ].
Qed.

Lemma only_try_except {A} (ok : event -> Prop) (body : M A)
    (handler : exn -> option (M A)) :
  only ok body ->
  (forall ex h, handler ex = Some h -> only ok h) ->
  only ok (try_except body handler).
Proof.
  intros Hb Hh st. unfold try_except. destruct (Hb st) as [t [T F]].
  destruct (body st) as [[a | | ex] st']; simpl in *.
  - exists t. auto.
  - exists t. auto.
  - destruct (handler ex) as [h | ] eqn:H.
    + destruct (Hh ex h H st') as [u [U G]]. exists (t ++ u)%list.
      rewrite U, T, app_assoc. split; [ reflexivity | apply Forall_app; auto ].
    + exists t. auto.
Qed.

Lemma only_finally {A} (ok : event -> Prop) (body : M A) (cleanup : M unit) :
  only ok body -> only ok cleanup -> only ok (finally body cleanup).
Proof.
  intros Hb Hc st. unfold finally. destruct (Hb st) as [t [T F]].
  destruct (body st) as [r st']. simpl in *.
  destruct (Hc st') as [u [U G]].
  destruct (cleanup st') as [[[] | | ex] st'']; simpl in *;
    exists (t ++ u)%list; rewrite U, T, app_assoc;
    (split; [ reflexivity | apply Forall_app; auto ]).
Qed.

Lemma only_browser_close (ok : event -> Prop) (e : env) :
  ok BrowserClose -> only ok (browser_close e).
Proof. intros H st. apply (only_await ok BrowserClose). exact H. Qed.

Lemma only_page_content (ok : event -> Prop) (e : env) :
  ok Content -> only ok (page_content e).
Proof.
  intros H st. unfold page_content. destruct (content e _) as [o html].
  apply (only_bind ok (await Content o) (fun _ => ret html)).
  - apply only_await, H.
  - intros _. apply only_ret.
Qed.

Lemma only_close_and_give_up {A} (ok : event -> Prop) (e : env) :
  ok BrowserClose -> ok (Stdout "[]") -> only ok (A := A) (close_and_give_up e).
Proof.
  intros C P. unfold close_and_give_up.
  apply only_bind; [ apply only_browser_close, C | intros _ ].
  apply only_bind; [ apply only_record, P | intros _; apply only_return ].
Qed.

Lemma only_launch_browser (ok : event -> Prop) (e : env) (options : list (list string))
    (i : nat) :
  (forall j, i <= j < i + List.length options -> ok (Launch j)) ->
  only ok (launch_browser e i options).
Proof.
  revert i. induction options as [ | o rest IH]; intros i H; simpl.
  - apply only_ret.
  - apply only_bind.
    + apply only_try_except.
      * apply only_bind; [ apply only_await, H; simpl; lia | ].
        intros _ st. exists []. simpl. rewrite app_nil_r. auto.
      * intros ex h E. destruct ex; try discriminate; injection E as <-.
        -- apply only_ret.
        -- destruct rest; [ apply only_raise | apply only_ret ].
    + intros [ | ]; [ apply only_ret | apply IH ].
      intros j J. apply H. simpl. lia.
Qed.

Lemma only_wait_for_events (ok : event -> Prop) (e : env) (candidates : list string) :
  (forall selector, In selector candidates -> ok (WaitForSelector selector)) ->
  only ok (wait_for_events e candidates).
Proof.
  induction candidates as [ | selector rest IH]; intros H; simpl.
  - apply only_ret.
  - apply only_bind.
    + apply only_try_except.
      * apply only_bind; [ apply only_await, H; left; reflexivity | ].
        intros _; apply only_ret.
      * intros ex h E. destruct (is_Exception ex); try discriminate.
        injection E as <-. apply only_ret.
    + intros [ | ]; [ apply only_ret | apply IH ].
      intros s I. apply H. right. exact I.
Qed.

Lemma only_navigate (ok : event -> Prop) (e : env) (url : string) :
  ok (Goto url) -> ok Sleep -> ok BrowserClose -> ok (Stdout "[]") ->
  only ok (navigate e url).
Proof.
  intros G S C P. unfold navigate. apply only_try_except.
  - apply only_bind; [ apply only_await, G | intros _; apply only_await, S ].
  - intros ex h E. destruct ex; try discriminate; injection E as <-;
      apply only_close_and_give_up; assumption.
Qed.

Lemma only_session (ok : event -> Prop) (e : env) (url : string) :
  (forall j, j < List.length launch_options -> ok (Launch j)) ->
  ok NewPage -> ok AddInitScript -> ok SetHeaders -> ok (Goto url) -> ok Sleep ->
  ok BrowserClose -> ok (Stdout "[]") -> ok Content ->
  (forall selector, In selector selectores -> ok (WaitForSelector selector)) ->
  only ok (session e url).
Proof.
  intros HL HN HA HS HG HZ HC HP HT HW. unfold session.
  apply only_bind; [ apply only_launch_browser; intros j J; apply HL; lia | intros _ ].
  apply only_bind.
  { intros st. destruct (browser st); [ apply only_ret | apply only_raise ]. }
  intros _.
  apply only_bind; [ apply only_await, HN | intros _ ].
  apply only_bind; [ apply only_await, HA | intros _ ].
  apply only_bind; [ apply only_await, HS | intros _ ].
  apply only_bind; [ apply only_navigate; assumption | intros _ ].
  apply only_bind; [ apply only_wait_for_events, HW | intros _ ].
  apply only_bind; [ apply only_page_content, HT | intros html ].
  destruct (Nat.ltb _ _); [ apply only_close_and_give_up; assumption | ].
  destruct (bloqueada html); [ apply only_close_and_give_up; assumption | ].
  apply only_finally; [ | apply only_browser_close, HC ].
  apply only_try_except; [ apply only_page_content, HT | ].
  intros ex h E.
  destruct ex; try discriminate; injection E as <-;
    apply only_close_and_give_up; assumption.
Qed.

Lemma only_playwright (ok : event -> Prop) (e : env) (url : string) :
  (forall j, j < List.length launch_options -> ok (Launch j)) ->
  ok PlaywrightStart -> ok PlaywrightStop ->
  ok NewPage -> ok AddInitScript -> ok SetHeaders -> ok (Goto url) -> ok Sleep ->
  ok BrowserClose -> ok (Stdout "[]") -> ok Content ->
  (forall selector, In selector selectores -> ok (WaitForSelector selector)) ->
  only ok (playwright e url).
Proof.
  intros HL H1 H2 HN HA HS HG HZ HC HP HT HW. unfold playwright, async_with.
  apply only_try_except.
  - apply only_bind; [ apply only_await, H1 | intros _ ].
    apply only_finally; [ apply only_session; assumption | apply only_await, H2 ].
  - intros ex h E. destruct (is_Exception ex); try discriminate. injection E as <-.
    unfold on_playwright_error.
    apply only_bind.
    { intros st. destruct (browser st); [ | apply only_ret ].
      apply only_try_except; [ apply only_browser_close, HC | ].
      intros ex' h' E'. injection E' as <-. apply only_ret. }
    intros _. apply only_bind; [ apply only_record, HP | intros _; apply only_return ].
Qed.

(** X13: with accepted arguments a run issues no call and prints no line
    but those of the script: it launches with one of the three
    configurations, navigates to the resolved URL and to no other, waits
    for selectors of the list of lines 217-223 only, and prints [[]] or the
    serialised records of a parsed page. *)
Theorem run_issues_scripted_calls (e : env) (argv : list string) (q : query) :
  parse_args argv = Some q ->
  Forall (scripted q) (trace (main e argv)).
Proof.
  intros A. unfold main.
  assert (S : only (scripted q) (scrape_songkick_events e argv)).
  { unfold scrape_songkick_events. rewrite A.
    apply only_bind; [ apply only_record; exact I | intros _ ].
    apply only_bind.
    - apply only_playwright; simpl; auto.
    - intros html. unfold process_html. destruct (BeautifulSoup html) as [s | ].
      + apply only_record. right. exists s. reflexivity.
      + apply only_bind; [ apply only_record; left; reflexivity | intros _ ].
        apply only_return. }
  destruct (S initial) as [t [T F]].
  destruct (scrape_songkick_events e argv initial) as [[[] | | ex] st]; simpl in *;
    rewrite T; try exact F.
  apply Forall_app. split; [ exact F | ].
  constructor; [ left; reflexivity | constructor ].
Qed.

(** ** The page that is handed over *)

Lemma count_app (p : event -> bool) (a b : list event) :
  count p (a ++ b) = count p a + count p b.
Proof. unfold count. rewrite filter_app, length_app. reflexivity. Qed.

Lemma count_cons (p : event -> bool) (ev : event) (t : list event) :
  count p (ev :: t) = (if p ev then 1 else 0) + count p t.
Proof. unfold count. simpl. destruct (p ev); reflexivity. Qed.

Lemma count_nil (p : event -> bool) : count p [] = 0.
Proof. reflexivity. Qed.

Lemma count_map {X} (p : event -> bool) (f : X -> event) (l : list X) :
  (forall x, p (f x) = false) -> count p (map f l) = 0.
Proof.
  intros H. unfold count. induction l as [ | x l IH]; simpl; [ reflexivity | ].
  rewrite H. exact IH.
Qed.

Lemma stdout_map {X} (f : X -> event) (l : list X) :
  (forall x, stdout [f x] = []) -> stdout (map f l) = [].
Proof.
  intros H. induction l as [ | x l IH]; [ reflexivity | ].
  change (map f (x :: l)) with ([f x] ++ map f l)%list.
  rewrite stdout_app, H, IH. reflexivity.
Qed.

Lemma only_count {A} (p : event -> bool) (c : M A) (st : state) :
  only (fun ev => p ev = false) c ->
  count p (trace (snd (c st))) = count p (trace st).
Proof.
  intros H. destruct (H st) as [t [-> F]]. rewrite count_app.
  assert (Z : count p t = 0).
  { unfold count. induction F as [ | ev t E F IH]; simpl; [ reflexivity | ].
    rewrite E. exact IH. }
  lia.
Qed.

Lemma bind_run {A B} (c : M A) (k : A -> M B) (st st' : state) (a : A) :
  c st = (Normal a, st') -> bind c k st = k a st'.
Proof. intros H. unfold bind. rewrite H. reflexivity. Qed.

Lemma bind_Normal {A B} (c : M A) (k : A -> M B) (st : state) (b : B) :
  fst (bind c k st) = Normal b ->
  exists a st', c st = (Normal a, st') /\ fst (k a st') = Normal b.
Proof.
  unfold bind. destruct (c st) as [[a | | ex] st']; simpl; try discriminate.
  intros R. exists a, st'. auto.
Qed.

Lemma await_Normal (ev : event) (o : outcome) (st st' : state) :
  await ev o st = (Normal tt, st') -> o = Done /\ st' = after st [ev].
Proof.
  unfold await, bind, record, ret, raise, after.
  destruct o; simpl; intros H; try discriminate. injection H as <-. auto.
Qed.

Lemma finally_Normal {A} (body : M A) (cleanup : M unit) (st : state) (a : A) :
  fst (finally body cleanup st) = Normal a ->
  exists st', body st = (Normal a, st') /\ fst (cleanup st') = Normal tt.
Proof.
  unfold finally. destruct (body st) as [r st'].
  destruct (cleanup st') as [[[] | | ex] st''] eqn:C; simpl; try discriminate.
  intros ->. exists st'. rewrite C. split; reflexivity.
Qed.

Lemma close_and_give_up_leaves {A} (e : env) (st : state) (a : A) :
  fst (close_and_give_up e st) <> Normal a.
Proof.
  unfold close_and_give_up, browser_close, await, bind, record, print, record,
    return_, ret, raise.
  destruct (close e _); simpl; discriminate.
Qed.

Lemma page_content_Normal (e : env) (st st' : state) (html : string) :
  page_content e st = (Normal html, st') ->
  content e (count is_content (trace st)) = (Done, html) /\ st' = after st [Content].
Proof.
  unfold page_content, await, bind, record, ret, raise, after.
  destruct (content e _) as [[ | | | ] h]; simpl; intros H; try discriminate.
  injection H as -> <-. auto.
Qed.

Lemma navigate_Normal (e : env) (url : string) (st st' : state) :
  navigate e url st = (Normal tt, st') ->
  goto e = Done /\ sleep e = Done /\ st' = after st [Goto url; Sleep].
Proof.
  unfold navigate, try_except. intros H.
  destruct (goto e) eqn:G, (sleep e) eqn:S;
    unfold await, bind, record, ret, raise in H; simpl in H;
    try (injection H as <-; unfold after; simpl; rewrite <- app_assoc; auto; fail);
    try discriminate;
    exfalso;
    match type of H with
    | close_and_give_up e ?s = _ =>
        apply (close_and_give_up_leaves e s tt); rewrite H; reflexivity
    end.
Qed.

(** The launch loop has set [browser] only if one configuration has
    launched, after each earlier one was missed. *)
Lemma launched_some (e : env) (st : state) :
  browser st = false ->
  browser (snd (launch_browser e 0 launch_options st)) = true ->
  exists i,
    i < 3 /\ launch e i = Done /\ forall j, j < i -> missed (launch e j).
Proof.
  unfold launch_options, launch_browser, try_except, await, bind, record, ret, raise,
    missed.
  intros B.
  destruct (launch e 0) eqn:E0; simpl; try congruence.
  1: intros _; exists 0; repeat split; try assumption; lia.
  all: destruct (launch e 1) eqn:E1; simpl; try congruence.
  1, 4: intros _; exists 1; repeat split; try assumption; try lia;
    intros j J; assert (j = 0) as -> by lia; rewrite E0; auto.
  all: destruct (launch e 2) eqn:E2; simpl; try congruence.
  all: intros _; exists 2; repeat split; try assumption; try lia;
    intros j J; assert (j = 0 \/ j = 1) as [-> | ->] by lia; rewrite ?E0, ?E1; auto.
Qed.

Lemma launch_browser_launched (e : env) (st : state) (i : nat) :
  i < 3 -> launch e i = Done -> (forall j, j < i -> missed (launch e j)) ->
  launch_browser e 0 launch_options st
    = (Normal tt, {| trace := trace st ++ map Launch (seq 0 (S i)); browser := true |}).
Proof.
  intros I D F.
  assert (F0 : 0 < i -> missed (launch e 0)) by (intros; apply F; lia).
  assert (F1 : 1 < i -> missed (launch e 1)) by (intros; apply F; lia).
  unfold launch_options, launch_browser, try_except, await, bind, record, ret, raise.
  destruct i as [ | [ | [ | i]]]; try lia.
  - rewrite D. reflexivity.
  - destruct (F0 ltac:(lia)) as [-> | ->]; simpl; rewrite D; simpl;
      rewrite <- app_assoc; reflexivity.
  - destruct (F0 ltac:(lia)) as [-> | ->], (F1 ltac:(lia)) as [-> | ->]; simpl;
      rewrite D; simpl; rewrite <- !app_assoc; reflexivity.
Qed.

(** Without a cancellation the selector loop falls through. *)
Lemma wait_for_events_falls_through (e : env) (candidates : list string) (st : state) :
  (forall selector, In selector candidates -> wait_for_selector e selector <> Cancelled) ->
  exists found tried,
    wait_for_events e candidates st = (Normal found, after st (map WaitForSelector tried)).
Proof.
  revert st. induction candidates as [ | selector rest IH]; intros st H.
  - exists false, []. unfold after. simpl. rewrite app_nil_r. destruct st; reflexivity.
  - assert (N : exists found tried,
              wait_for_events e rest (after st [WaitForSelector selector])
                = (Normal found,
                   after st (map WaitForSelector (selector :: tried)))).
    { destruct (IH (after st [WaitForSelector selector])) as [found [tried E]].
      - intros s I. apply H. right. exact I.
      - exists found, tried. rewrite E. unfold after. simpl.
        rewrite <- app_assoc. reflexivity. }
    destruct N as [found [tried N]].
    simpl. unfold try_except, bind, await, record, ret, raise.
    destruct (wait_for_selector e selector) eqn:W; simpl.
    + exists true, [selector]. reflexivity.
    + exists found, (selector :: tried). exact N.
    + exists found, (selector :: tried). exact N.
    + exfalso. apply (H selector); [ left; reflexivity | exact W ].
Qed.

(** The session hands a page over only when every awaited call before has
    completed, the selector waits apart: the first result of
    [page.content()] has passed the checks of lines 250-263, the second is
    the page handed over, and the [browser.close()] of line 285 has
    completed. *)
Lemma session_Normal (e : env) (url : string) (st : state) (html : string) :
  browser st = false ->
  count is_content (trace st) = 0 ->
  count is_close (trace st) = 0 ->
  fst (session e url st) = Normal html ->
  (exists i, i < 3 /\ launch e i = Done /\ forall j, j < i -> missed (launch e j)) /\
  new_page e = Done /\ add_init_script e = Done /\ set_extra_http_headers e = Done /\
  goto e = Done /\ sleep e = Done /\
  (exists first,
     content e 0 = (Done, first) /\
     Nat.ltb (String.length first) 1000 = false /\
     bloqueada first = false) /\
  content e 1 = (Done, html) /\
  close e 0 = Done.
Proof.
  intros B Z C H. unfold session in H.
  apply bind_Normal in H. destruct H as [[] [st1 [E1 H]]].
  pose proof (only_count is_content (launch_browser e 0 launch_options) st
                ltac:(apply only_launch_browser; reflexivity)) as Z1.
  pose proof (only_count is_close (launch_browser e 0 launch_options) st
                ltac:(apply only_launch_browser; reflexivity)) as C1.
  pose proof (launched_some e st B) as S1.
  rewrite E1 in Z1, C1, S1. simpl in Z1, C1, S1.
  apply bind_Normal in H. destruct H as [[] [st2 [E2 H]]].
  destruct (browser st1) eqn:B1; [ | discriminate ].
  injection E2 as <-.
  split; [ exact (S1 eq_refl) | ].
  apply bind_Normal in H. destruct H as [[] [st3 [E3 H]]].
  apply await_Normal in E3. destruct E3 as [-> ->].
  apply bind_Normal in H. destruct H as [[] [st4 [E4 H]]].
  apply await_Normal in E4. destruct E4 as [-> ->].
  apply bind_Normal in H. destruct H as [[] [st5 [E5 H]]].
  apply await_Normal in E5. destruct E5 as [-> ->].
  apply bind_Normal in H. destruct H as [[] [st6 [E6 H]]].
  apply navigate_Normal in E6. destruct E6 as [-> [-> ->]].
  apply bind_Normal in H. destruct H as [found [st7 [E7 H]]].
  match type of E7 with
  | wait_for_events _ _ ?s = _ =>
      pose proof (only_count is_content (wait_for_events e selectores) s
                    ltac:(apply only_wait_for_events; reflexivity)) as Z7;
      pose proof (only_count is_close (wait_for_events e selectores) s
                    ltac:(apply only_wait_for_events; reflexivity)) as C7
  end.
  rewrite E7 in Z7, C7. unfold after in Z7, C7. simpl in Z7, C7.
  rewrite !count_app, !count_cons, !count_nil in Z7, C7.
  rewrite Z1, Z in Z7. rewrite C1, C in C7. simpl in Z7, C7.
  apply bind_Normal in H. destruct H as [first [st8 [E8 H]]].
  apply page_content_Normal in E8. rewrite Z7 in E8. destruct E8 as [E8 ->].
  repeat (split; [ reflexivity | ]).
  destruct (Nat.ltb (String.length first) 1000) eqn:S.
  { exfalso. exact (close_and_give_up_leaves e _ html H). }
  destruct (bloqueada first) eqn:K.
  { exfalso. exact (close_and_give_up_leaves e _ html H). }
  split; [ exists first; auto | ].
  apply finally_Normal in H. destruct H as [st9 [E9 H]].
  unfold try_except in E9.
  destruct (page_content e (after st7 [Content])) as [[second | | [ | | ]] st9'] eqn:Q;
    try discriminate;
    try (exfalso; apply (close_and_give_up_leaves e st9' html); rewrite E9; reflexivity).
  injection E9 as -> ->.
  apply page_content_Normal in Q. simpl in Q.
  rewrite count_app, count_cons, count_nil, Z7 in Q. simpl in Q.
  destruct Q as [Q ->]. split; [ exact Q | ].
  revert H. unfold browser_close. simpl.
  rewrite !count_app, !count_cons, !count_nil, C7. simpl.
  unfold await, bind, record, ret, raise.
  destruct (close e 0); simpl; try discriminate. reflexivity.
Qed.

Lemma playwright_Normal (e : env) (url : string) (st : state) (html : string) :
  fst (playwright e url st) = Normal html ->
  playwright_start e = Done /\
  fst (session e url (after st [PlaywrightStart])) = Normal html /\
  playwright_stop e = Done.
Proof.
  intros H. unfold playwright, try_except in H.
  destruct (async_with _ _ _ st) as [[h | | ex] st'] eqn:W; simpl in H;
    try discriminate.
  - injection H as ->.
    assert (W' : fst (async_with (await PlaywrightStart (playwright_start e))
                        (await PlaywrightStop (playwright_stop e)) (session e url) st)
                 = Normal html) by (rewrite W; reflexivity).
    unfold async_with in W'.
    apply bind_Normal in W'. destruct W' as [[] [st1 [E1 W']]].
    apply await_Normal in E1. destruct E1 as [-> ->].
    split; [ reflexivity | ].
    apply finally_Normal in W'. destruct W' as [st2 [E2 W']].
    rewrite E2. split; [ reflexivity | ].
    revert W'. unfold await, bind, record, ret, raise.
    destruct (playwright_stop e); simpl; try discriminate. reflexivity.
  - exfalso. destruct (is_Exception ex); [ | discriminate ].
    revert H. unfold on_playwright_error, bind, try_except, browser_close, await, bind,
      record, print, record, return_, ret, raise.
    destruct (browser st'); simpl; [ destruct (close e _); simpl | ]; discriminate.
Qed.

(** How a run ends: with [[]] printed once or twice, or with the records
    of a page that the browser session has handed over. *)
Lemma run_cases (e : env) (argv : list string) :
  stdout (trace (main e argv)) = [ "[]" ] \/
  stdout (trace (main e argv)) = [ "[]"; "[]" ] \/
  exists q html s,
    parse_args argv = Some q /\
    fst (playwright e (resolve_url q) {| trace := [EnsureBrowsers]; browser := false |})
      = Normal html /\
    BeautifulSoup html = Some s /\
    stdout (trace (main e argv)) = [ json_output (eventos q (eventos_encontrados s)) ].
Proof.
  unfold main. destruct (parse_args argv) as [q | ] eqn:A.
  2: { unfold scrape_songkick_events. rewrite A. left. reflexivity. }
  rewrite (scrape_with_arguments e argv q A).
  destruct (playwright_lines e (resolve_url q)
              {| trace := [EnsureBrowsers]; browser := false |}) as [t [T P]].
  destruct (playwright e (resolve_url q) _) as [[html | | ex] st] eqn:W; simpl in *.
  - unfold process_html. destruct (BeautifulSoup html) as [s | ] eqn:D; simpl.
    + right. right. exists q, html, s. rewrite W.
      split; [ reflexivity | split; [ reflexivity | split; [ exact D | ] ] ].
      rewrite T. simpl. rewrite stdout_app, P. reflexivity.
    + left. rewrite T. simpl. rewrite stdout_app, P. reflexivity.
  - rewrite T. simpl. destruct P as [-> | ->]; auto.
  - rewrite T. simpl. rewrite stdout_app. simpl.
    destruct P as [_ [-> | ->]]; auto.
Qed.

(** X7: when the first line on standard output is not [[]], it is the only
    line and holds the records of the page that the second
    [page.content()] returned. Every awaited call of the run has then
    completed, the selector waits apart: the start of playwright, a launch
    after missed ones only, the page set-up, the navigation and its sleep,
    both calls of [page.content()], the [browser.close()] of line 285 and
    the exit of the [async with] block. The checks of lines 250-263 were
    passed by the result of the first [page.content()]; the parsed page is
    the result of the second. *)
Theorem events_need_every_call (e : env) (argv : list string) :
  hd "" (stdout (trace (main e argv))) <> "[]" ->
  exists q first html s,
    parse_args argv = Some q /\
    playwright_start e = Done /\
    (exists i, i < 3 /\ launch e i = Done /\ forall j, j < i -> missed (launch e j)) /\
    new_page e = Done /\ add_init_script e = Done /\ set_extra_http_headers e = Done /\
    goto e = Done /\ sleep e = Done /\
    content e 0 = (Done, first) /\
    1000 <= String.length first /\
    bloqueada first = false /\
    content e 1 = (Done, html) /\
    close e 0 = Done /\
    playwright_stop e = Done /\
    BeautifulSoup html = Some s /\
    stdout (trace (main e argv)) = [ json_output (eventos q (eventos_encontrados s)) ].
Proof.
  intros H.
  destruct (run_cases e argv) as [E | [E | [q [html [s [A [P [D E]]]]]]]].
  - rewrite E in H. simpl in H. congruence.
  - rewrite E in H. simpl in H. congruence.
  - apply playwright_Normal in P. destruct P as [P1 [P P2]].
    apply session_Normal in P; try reflexivity.
    destruct P as [S1 [S2 [S3 [S4 [S5 [S6 [[first [C0 [S7 S8]]] [S9 S10]]]]]]]].
    apply Nat.ltb_ge in S7.
    exists q, first, html, s. auto 20.
Qed.

(** X8: when the first [page.content()] gives fewer than 1000 characters,
    or a text that the check of lines 257-263 rejects, no record is
    printed: standard output holds [[]], once or twice. *)
Theorem rejected_page_prints_empty (e : env) (argv : list string) :
  String.length (snd (content e 0)) < 1000 \/ bloqueada (snd (content e 0)) = true ->
  stdout (trace (main e argv)) = [ "[]" ] \/
  stdout (trace (main e argv)) = [ "[]"; "[]" ].
Proof.
  intros H.
  destruct (run_cases e argv) as [E | [E | [q [html [s [A [P [D E]]]]]]]]; auto.
  exfalso.
  apply playwright_Normal in P. destruct P as [_ [P _]].
  apply session_Normal in P; try reflexivity.
  destruct P as [_ [_ [_ [_ [_ [_ [[first [C0 [S K]]] _]]]]]]].
  rewrite C0 in H. simpl in H. apply Nat.ltb_ge in S.
  destruct H as [H | H]; [ lia | congruence ].
Qed.

Lemma navigate_completes (e : env) (url : string) (st : state) :
  goto e = Done -> sleep e = Done ->
  navigate e url st = (Normal tt, after st [Goto url; Sleep]).
Proof.
  intros G S. unfold navigate, try_except, await, bind, record, ret, raise, after.
  rewrite G, S. simpl. rewrite <- app_assoc. reflexivity.
Qed.

Lemma page_content_completes (e : env) (st : state) (html : string) :
  content e (count is_content (trace st)) = (Done, html) ->
  page_content e st = (Normal html, after st [Content]).
Proof. intros C. unfold page_content. rewrite C. reflexivity. Qed.

Lemma browser_close_completes (e : env) (st : state) :
  close e (count is_close (trace st)) = Done ->
  browser_close e st = (Normal tt, after st [BrowserClose]).
Proof. intros C. unfold browser_close. rewrite C. reflexivity. Qed.

(** The session when every awaited call completes and the page passes
    the checks: it hands the second page over, having closed the browser
    once and printed nothing. *)
Lemma session_completes (e : env) (url : string) (st : state) (first html : string) :
  count is_content (trace st) = 0 ->
  count is_close (trace st) = 0 ->
  (exists i, i < 3 /\ launch e i = Done /\ forall j, j < i -> missed (launch e j)) ->
  new_page e = Done -> add_init_script e = Done -> set_extra_http_headers e = Done ->
  goto e = Done -> sleep e = Done ->
  (forall selector, In selector selectores -> wait_for_selector e selector <> Cancelled) ->
  content e 0 = (Done, first) ->
  Nat.ltb (String.length first) 1000 = false ->
  bloqueada first = false ->
  content e 1 = (Done, html) ->
  close e 0 = Done ->
  exists t,
    session e url st = (Normal html, {| trace := trace st ++ t; browser := true |}) /\
    stdout t = [] /\ count is_close t = 1.
Proof.
  intros Z C [i [I [D F]]] HN HA HS HG HZ HW C0 SZ K C1 X.
  unfold session.
  rewrite (bind_run _ _ _ _ _ (launch_browser_launched e st i I D F)).
  set (st1 := {| trace := trace st ++ map Launch (seq 0 (S i)); browser := true |}).
  rewrite (bind_run (fun st0 => if browser st0 then ret tt st0 else raise Exception st0)
             _ st1 st1 tt eq_refl).
  rewrite HN, HA, HS.
  rewrite (bind_run (await NewPage Done) _ st1 _ tt eq_refl).
  rewrite (bind_run (await AddInitScript Done) _ _ _ tt eq_refl).
  rewrite (bind_run (await SetHeaders Done) _ _ _ tt eq_refl).
  rewrite (bind_run _ _ _ _ _ (navigate_completes e url _ HG HZ)).
  match goal with
  | |- context [ bind (wait_for_events e selectores) _ ?s ] =>
      destruct (wait_for_events_falls_through e selectores s HW) as [found [tried W]];
      set (st6 := s) in *
  end.
  rewrite (bind_run _ _ _ _ _ W).
  set (st7 := after st6 (map WaitForSelector tried)).
  assert (Z7 : count is_content (trace st7) = 0 /\ count is_close (trace st7) = 0).
  { unfold st7, st6, st1, after. simpl.
    rewrite !count_app, !count_cons, !count_nil, Z, C.
    rewrite !(count_map _ WaitForSelector), !(count_map _ Launch) by reflexivity.
    split; reflexivity. }
  destruct Z7 as [Z7 C7].
  assert (T7 : trace st7
               = (trace st ++ map Launch (seq 0 (S i))
                    ++ [NewPage; AddInitScript; SetHeaders; Goto url; Sleep]
                    ++ map WaitForSelector tried)%list).
  { unfold st7, st6, st1, after. simpl. rewrite <- !app_assoc. reflexivity. }
  assert (B7 : browser st7 = true) by reflexivity.
  clearbody st7.
  rewrite (bind_run (page_content e) _ st7 (after st7 [Content]) first).
  2: { apply page_content_completes. rewrite Z7. exact C0. }
  rewrite SZ, K.
  unfold finally, try_except.
  rewrite (page_content_completes e (after st7 [Content]) html).
  2: { unfold after. simpl. rewrite count_app, count_cons, count_nil, Z7. exact C1. }
  rewrite browser_close_completes.
  2: { unfold after. simpl. rewrite !count_app, !count_cons, !count_nil, C7. exact X. }
  exists (map Launch (seq 0 (S i))
            ++ [NewPage; AddInitScript; SetHeaders; Goto url; Sleep]
            ++ map WaitForSelector tried ++ [Content; Content; BrowserClose])%list.
  split; [ | split ].
  - unfold after. simpl. rewrite T7, B7, <- !app_assoc. reflexivity.
  - rewrite !stdout_app, !stdout_map by reflexivity. reflexivity.
  - rewrite !count_app, !count_cons, !count_nil.
    rewrite !(count_map _ WaitForSelector), !(count_map _ Launch) by reflexivity.
    reflexivity.
Qed.

(** X9: a run prints the records of the page, on one line, when the
    arguments are accepted, every awaited call completes and the first page
    passes the checks of lines 250-263. Launch configurations that were
    missed before one launched, and selector waits that timed out or
    raised, do not change this. [browser.close()] is then called once. *)
Theorem completed_run_prints_events (e : env) (argv : list string) (q : query)
    (first html : string) (s : soup) :
  parse_args argv = Some q ->
  playwright_start e = Done ->
  (exists i, i < 3 /\ launch e i = Done /\ forall j, j < i -> missed (launch e j)) ->
  new_page e = Done -> add_init_script e = Done -> set_extra_http_headers e = Done ->
  goto e = Done -> sleep e = Done ->
  (forall selector, In selector selectores -> wait_for_selector e selector <> Cancelled) ->
  content e 0 = (Done, first) ->
  1000 <= String.length first ->
  bloqueada first = false ->
  content e 1 = (Done, html) ->
  close e 0 = Done ->
  playwright_stop e = Done ->
  BeautifulSoup html = Some s ->
  stdout (trace (main e argv)) = [ json_output (eventos q (eventos_encontrados s)) ] /\
  count is_close (trace (main e argv)) = 1 /\
  browser (main e argv) = true.
Proof.
  intros A P1 HL HN HA HS HG HZ HW C0 SZ K C1 X P2 D.
  apply Nat.ltb_ge in SZ.
  destruct (session_completes e (resolve_url q)
              {| trace := [EnsureBrowsers; PlaywrightStart]; browser := false |}
              first html eq_refl eq_refl HL HN HA HS HG HZ HW C0 SZ K C1 X)
    as [t [E [T N]]].
  unfold main. rewrite (scrape_with_arguments e argv q A).
  unfold playwright, try_except, async_with, finally.
  rewrite P1, P2.
  rewrite (bind_run (await PlaywrightStart Done) _ _ _ tt eq_refl).
  simpl in E. simpl. rewrite E. simpl.
  unfold process_html. rewrite D. simpl.
  change (EnsureBrowsers :: PlaywrightStart :: (t ++ [PlaywrightStop])
            ++ [Stdout (json_output (eventos q (eventos_encontrados s)))])%list
    with ([EnsureBrowsers; PlaywrightStart]
            ++ (t ++ [PlaywrightStop])
            ++ [Stdout (json_output (eventos q (eventos_encontrados s)))])%list.
  rewrite !stdout_app, !count_app, T, N. repeat split.
Qed.

(** X4: when the start of playwright does not complete, or none of the
    three launch configurations launches, the run prints [[]] once and
    nothing else, [browser] stays unset, and no call is made that needs a
    browser: no page is opened, nothing is navigated to, and
    [browser.close()] is not called. *)
Theorem no_browser_no_page (e : env) (argv : list string) :
  playwright_start e <> Done \/ (forall i, i < 3 -> launch e i <> Done) ->
  stdout (trace (main e argv)) = [ "[]" ] /\
  browser (main e argv) = false /\
  forallb (fun ev => negb (uses_browser ev)) (trace (main e argv)) = true.
Proof.
  intros H. unfold main. destruct (parse_args argv) as [q | ] eqn:A.
  2: { unfold scrape_songkick_events. rewrite A. simpl. auto. }
  rewrite (scrape_with_arguments e argv q A).
  unfold playwright, async_with, session, try_except, finally, bind, await, record,
    ret, raise.
  simpl trace. simpl browser.
  destruct (playwright_start e) eqn:S.
  2-4: simpl; destruct (playwright_stop e); simpl; auto.
  destruct H as [H | H]; [ congruence | ].
  pose proof (H 0 ltac:(lia)) as H0.
  pose proof (H 1 ltac:(lia)) as H1.
  pose proof (H 2 ltac:(lia)) as H2.
  unfold launch_options, launch_browser, try_except, bind, await, record, ret, raise.
  destruct (launch e 0); try congruence; simpl;
    try (destruct (playwright_stop e); simpl; auto; fail);
    (destruct (launch e 1); try congruence; simpl;
     try (destruct (playwright_stop e); simpl; auto; fail));
    (destruct (launch e 2); try congruence; simpl;
     try (destruct (playwright_stop e); simpl; auto; fail)).
Qed.

(** ** One line *)

Lemma prints_on_return_silent {A} (c : M A) : silent c -> prints_on_return c.
Proof.
  intros H st. destruct (H st) as [t [T [P N]]]. exists t. split; [ exact T | ].
  destruct (fst (c st)); auto. congruence.
Qed.

Lemma prints_on_return_bind {A B} (c : M A) (k : A -> M B) :
  prints_on_return c -> (forall a, prints_on_return (k a)) ->
  prints_on_return (bind c k).
Proof.
  intros Hc Hk st. unfold bind. destruct (Hc st) as [t [T P]].
  destruct (c st) as [[a | | ex] st']; simpl in *.
  - destruct (Hk a st') as [u [U P']]. exists (t ++ u)%list.
    rewrite U, T, app_assoc, stdout_app, P. split; [ reflexivity | exact P' ].
  - exists t. split; assumption.
  - exists t. split; assumption.
Qed.

Lemma prints_on_return_try_except {A} (body : M A) (handler : exn -> option (M A)) :
  prints_on_return body ->
  (forall ex h, handler ex = Some h -> prints_on_return h) ->
  prints_on_return (try_except body handler).
Proof.
  intros Hb Hh st. unfold try_except. destruct (Hb st) as [t [T P]].
  destruct (body st) as [[a | | ex] st']; simpl in *.
  - exists t. split; assumption.
  - exists t. split; assumption.
  - destruct (handler ex) as [h | ] eqn:H.
    + destruct (Hh ex h H st') as [u [U P']]. exists (t ++ u)%list.
      rewrite U, T, app_assoc, stdout_app, P. split; [ reflexivity | exact P' ].
    + exists t. split; assumption.
Qed.

Lemma prints_on_return_finally {A} (body : M A) (cleanup : M unit) :
  prints_on_return body -> falls_through cleanup ->
  prints_on_return (finally body cleanup).
Proof.
  intros Hb Hc st. unfold finally. destruct (Hb st) as [t [T P]].
  destruct (body st) as [r st']. simpl in *.
  destruct (Hc st') as [u [U [P' N]]].
  destruct (cleanup st') as [[[] | | ex] st'']; simpl in *; try discriminate.
  exists (t ++ u)%list. rewrite U, T, app_assoc, stdout_app, P', app_nil_r.
  split; [ reflexivity | exact P ].
Qed.

Lemma falls_through_await (ev : event) : stdout [ev] = [] -> falls_through (await ev Done).
Proof. intros H st. exists [ev]. simpl. auto. Qed.

Lemma falls_through_browser_close (e : env) :
  (forall k, close e k = Done) -> falls_through (browser_close e).
Proof.
  intros H st. unfold browser_close. rewrite H.
  apply (falls_through_await BrowserClose). reflexivity.
Qed.

Lemma prints_on_return_close_and_give_up {A} (e : env) :
  (forall k, close e k = Done) -> prints_on_return (A := A) (close_and_give_up e).
Proof.
  intros H st. exists [BrowserClose; Stdout "[]"].
  unfold close_and_give_up, browser_close, await, bind, record, print, record,
    return_, ret.
  rewrite !H. simpl.
  split; [ | reflexivity ].
  exact (eq_sym (app_assoc (trace st) [BrowserClose] [Stdout "[]"])).
Qed.

Lemma prints_on_return_session (e : env) (url : string) :
  (forall k, close e k = Done) -> prints_on_return (session e url).
Proof.
  intros X. unfold session.
  apply prints_on_return_bind;
    [ apply prints_on_return_silent, silent_launch_browser | intros _ ].
  apply prints_on_return_bind.
  { apply prints_on_return_silent. intros st.
    destruct (browser st); [ apply silent_ret | apply silent_raise ]. }
  intros _.
  do 3 (apply prints_on_return_bind;
        [ apply prints_on_return_silent, silent_await; reflexivity | intros _ ]).
  apply prints_on_return_bind.
  { unfold navigate. apply prints_on_return_try_except.
    - apply prints_on_return_silent.
      apply silent_bind; [ | intros _ ]; apply silent_await; reflexivity.
    - intros ex h H.
      destruct ex; try discriminate; injection H as <-;
        apply prints_on_return_close_and_give_up, X. }
  intros _.
  apply prints_on_return_bind;
    [ apply prints_on_return_silent, silent_wait_for_events | intros _ ].
  apply prints_on_return_bind;
    [ apply prints_on_return_silent, silent_page_content | intros html ].
  destruct (Nat.ltb _ _); [ apply prints_on_return_close_and_give_up, X | ].
  destruct (bloqueada html); [ apply prints_on_return_close_and_give_up, X | ].
  apply prints_on_return_finally; [ | apply falls_through_browser_close, X ].
  apply prints_on_return_try_except;
    [ apply prints_on_return_silent, silent_page_content | ].
  intros ex h H.
  destruct ex; try discriminate; injection H as <-;
    apply prints_on_return_close_and_give_up, X.
Qed.

Lemma prints_on_return_playwright (e : env) (url : string) :
  playwright_stop e = Done -> (forall k, close e k = Done) ->
  prints_on_return (playwright e url).
Proof.
  intros P X. unfold playwright, async_with. rewrite P.
  apply prints_on_return_try_except.
  - apply prints_on_return_bind;
      [ apply prints_on_return_silent, silent_await; reflexivity | intros _ ].
    apply prints_on_return_finally;
      [ apply prints_on_return_session, X | apply falls_through_await; reflexivity ].
  - intros ex h H. destruct (is_Exception ex); try discriminate. injection H as <-.
    intros st.
    unfold on_playwright_error, bind, try_except, browser_close, await, bind,
      record, print, record, return_, ret, raise.
    destruct (browser st); simpl; [ rewrite X; simpl | ].
    + exists [BrowserClose; Stdout "[]"]. rewrite <- app_assoc. auto.
    + exists [Stdout "[]"]. auto.
Qed.

(** X10: when every [browser.close()] and the exit of the [async with]
    block complete, standard output holds exactly one line, whatever the
    other calls do and whenever the 120 s run out. *)
Theorem one_line_when_cleanup_completes (e : env) (argv : list string) :
  playwright_stop e = Done ->
  (forall k, close e k = Done) ->
  exists line, stdout (trace (main e argv)) = [ line ].
Proof.
  intros P X. unfold main. destruct (parse_args argv) as [q | ] eqn:A.
  2: { unfold scrape_songkick_events. rewrite A. exists "[]". reflexivity. }
  rewrite (scrape_with_arguments e argv q A).
  destruct (prints_on_return_playwright e (resolve_url q) P X
              {| trace := [EnsureBrowsers]; browser := false |}) as [t [T Q]].
  destruct (playwright e (resolve_url q) _) as [[html | | ex] st]; simpl in *.
  - unfold process_html. destruct (BeautifulSoup html) as [s | ]; simpl;
      rewrite T; simpl; rewrite stdout_app, Q; simpl; eexists; reflexivity.
  - rewrite T. simpl. rewrite Q. eexists; reflexivity.
  - rewrite T. simpl. rewrite stdout_app, Q. simpl. eexists; reflexivity.
Qed.

End Properties.

(** * The script on the sample inputs *)

Example sample_run :
  stdout (trace (main (L := python) (calm sample_page) argv_tijuana))
    = [ Reference.dumps (PList [ near_event ]) ].
Proof. vm_compute. reflexivity. Qed.

Example sample_listing :
  eventos (L := python) tijuana [ listing (PFloat 32.53) (PFloat (-117.02)) ]
    = [ near_event ].
Proof. vm_compute. reflexivity. Qed.

(** An element 25 km north of the query point is dropped with a radius of
    20 km and kept, with its distance, with a radius of 30 km; without a
    venue link its venue is the empty string. *)
Example element_at_25_km :
  eventos (L := python) tijuana
    [ bare_listing "2025-06-14" (PFloat 32.7248304) (PFloat (-117)) ] = [] /\
  eventos (L := python) {| hotel_lat := 32.5; hotel_lon := -117; radius_km := 30 |}
    [ bare_listing "2025-06-14" (PFloat 32.7248304) (PFloat (-117)) ]
    = [ PDict [ ("nombre", PStr ""); ("fecha", PStr "2025-06-14"); ("lugar", PStr "");
                ("enlace", PStr ""); ("latitude", PFloat 32.7248304);
                ("longitude", PFloat (-117)); ("distance_km", PFloat 25) ] ].
Proof. split; vm_compute; reflexivity. Qed.

(** C1: a run that prints two lines. [page.goto] times out; line 206
    closes the browser, line 207 prints [[]] and line 208 returns, which
    leaves the [async with] block. When the 120 s of [__main__] run out at
    that point, line 407 prints [[]] again; when the exit of the block raises
    instead, line 294 does. *)
Theorem second_line_after_navigation_timeout :
  trace (main (L := python) late_cancel argv_tijuana)
    = [ EnsureBrowsers; PlaywrightStart; Launch 0; NewPage; AddInitScript;
        SetHeaders; Goto URL_TIJUANA; BrowserClose; Stdout "[]"; PlaywrightStop;
        Stdout "[]" ] /\
  stdout (trace (main (L := python) late_cancel argv_tijuana)) = [ "[]"; "[]" ] /\
  stdout (trace (main (L := python) failing_exit argv_tijuana)) = [ "[]"; "[]" ].
Proof. repeat split; vm_compute; reflexivity. Qed.

(** C2: the query (0.0, 2.3, 10) lies outside the Mexico box and is given
    the Tijuana URL, not the search URL. *)
Lemma zero_latitude_gets_metro_url :
  parse_args (L := python) [ "scrape_songkick.py"; "0.0"; "2.3"; "10" ]
    = Some null_island /\
  in_mexico null_island = false /\
  resolve_url (L := python) null_island = URL_TIJUANA /\
  String.eqb (resolve_url (L := python) null_island) (search_url (L := python) null_island)
    = false.
Proof. repeat split; vm_compute; reflexivity. Qed.

(** The routing at Monterrey (25.7, -100.3) and at Paris (48.8, 2.3). *)
Lemma resolve_url_routing_witness :
  in_mexico {| hotel_lat := 25.7; hotel_lon := -100.3; radius_km := 30 |} = true /\
  resolve_url (L := python) {| hotel_lat := 25.7; hotel_lon := -100.3; radius_km := 30 |}
    = URL_MONTERREY /\
  resolve_url (L := python) {| hotel_lat := 48.8; hotel_lon := 2.3; radius_km := 10 |}
    = "https://www.songkick.com/search?query=&location=48.8,2.3&radius=10.0".
Proof.
  split; [ reflexivity | split ].
  - rewrite (proj1 (resolve_url_routing (L := python)
                      {| hotel_lat := 25.7; hotel_lon := -100.3; radius_km := 30 |})
               eq_refl eq_refl eq_refl eq_refl).
    reflexivity.
  - rewrite (proj1 (proj2 (resolve_url_routing (L := python)
                             {| hotel_lat := 48.8; hotel_lon := 2.3; radius_km := 10 |}))
               eq_refl eq_refl eq_refl).
    vm_compute. reflexivity.
Defined.

(** C3: with the radius argument [nan] no distance is greater than the
    radius, and an event 2300 km away is emitted. *)
Lemma nan_radius_keeps_distant_event :
  parse_args (L := python) [ "scrape_songkick.py"; "32.5"; "-117.0"; "nan" ]
    = Some any_distance /\
  map (fun ev => py_get ev "distance_km" PNone)
    (eventos (L := python) any_distance
       [ bare_listing "Tonight" (PFloat 19.4) (PFloat (-99.1)) ])
    = [ Some (PFloat 2307.58) ] /\
  option_map (fun d => (PrimFloat.leb d (radius_km any_distance), PrimFloat.ltb 2000 d))
    (geodesic (Libs := python) (32.5, -117)%float (PFloat 19.4, PFloat (-99.1)))
    = Some (false, true).
Proof. repeat split; vm_compute; reflexivity. Qed.

(** A latitude given as the empty string is not dropped: geopy reads it as
    0.0 and the record carries the string. *)
Example text_latitude_is_emitted :
  map (fun ev => (py_get ev "latitude" PNone, py_get ev "distance_km" PNone))
    (eventos (L := python) null_island [ bare_listing "Tonight" (PStr "") (PFloat 2.3) ])
    = [ (Some (PStr ""), Some (PFloat 0)) ].
Proof. vm_compute. reflexivity. Qed.

(** The record of the sample listing, 3.83 km from the query point. *)
Lemma located_and_within_radius_witness :
  In near_event
    (eventos (L := python) tijuana [ listing (PFloat 32.53) (PFloat (-117.02)) ]) /\
  exists li lat lon d,
    In li [ listing (PFloat 32.53) (PFloat (-117.02)) ] /\
    coordinates (L := python) li = (lat, lon) /\ lat <> PNone /\ lon <> PNone /\
    geodesic (Libs := python) (hotel_lat tijuana, hotel_lon tijuana) (lat, lon) = Some d /\
    gt d (radius_km tijuana) = false /\
    (is_nan d = false -> is_nan (radius_km tijuana) = false ->
     PrimFloat.leb d (radius_km tijuana) = true) /\
    py_get near_event "latitude" PNone = Some lat /\
    py_get near_event "longitude" PNone = Some lon /\
    py_get near_event "distance_km" PNone = Some (PFloat (py_round (Libs := python) d 2)).
Proof.
  assert (H : In near_event
                (eventos (L := python) tijuana [ listing (PFloat 32.53) (PFloat (-117.02)) ])).
  { vm_compute. left. reflexivity. }
  split; [ exact H | ].
  exact (proj2 (proj2 (located_and_within_radius (L := python) tijuana
                         [ listing (PFloat 32.53) (PFloat (-117.02)) ]))
           near_event H).
Defined.

(** C4: a latitude that [float] rejects makes the distance call raise;
    the element is dropped, no distance 0.0 is attached to it. *)
Lemma geodesic_raises_on_text :
  geodesic (Libs := python) (32.5, -117)%float (PStr "north", PFloat (-117)) = None /\
  process (L := python) tijuana (bare_listing "Tonight" (PStr "north") (PFloat (-117)))
    = Faulted /\
  eventos (L := python) tijuana [ bare_listing "Tonight" (PStr "north") (PFloat (-117)) ]
    = [].
Proof. repeat split; vm_compute; reflexivity. Qed.

(** A faulty element between two good ones leaves their records alone. *)
Lemma distance_fault_skips_element_witness :
  geodesic (Libs := python) (hotel_lat tijuana, hotel_lon tijuana)
    (coordinates (L := python) (bare_listing "Tonight" (PStr "north") (PFloat (-117))))
    = None /\
  eventos (L := python) tijuana
    ([ listing (PFloat 32.53) (PFloat (-117.02)) ]
       ++ bare_listing "Tonight" (PStr "north") (PFloat (-117))
       :: [ listing (PFloat 32.53) (PFloat (-117.02)) ])
    = (eventos (L := python) tijuana [ listing (PFloat 32.53) (PFloat (-117.02)) ]
         ++ eventos (L := python) tijuana [ listing (PFloat 32.53) (PFloat (-117.02)) ])%list.
Proof.
  assert (H : geodesic (Libs := python) (hotel_lat tijuana, hotel_lon tijuana)
                (coordinates (L := python)
                   (bare_listing "Tonight" (PStr "north") (PFloat (-117)))) = None).
  { vm_compute. reflexivity. }
  split; [ exact H | ].
  exact (proj2 (distance_fault_skips_element (L := python) tijuana
                  [ listing (PFloat 32.53) (PFloat (-117.02)) ]
                  [ listing (PFloat 32.53) (PFloat (-117.02)) ]
                  (bare_listing "Tonight" (PStr "north") (PFloat (-117))) H)).
Defined.

(** C5: the keys of an emitted record are nombre, fecha, lugar and enlace,
    not name, date, venue and link. *)
Lemma evento_keys_are_spanish :
  map keys (eventos (L := python) tijuana [ listing (PFloat 32.53) (PFloat (-117.02)) ])
    = [ [ "nombre"; "fecha"; "lugar"; "enlace"; "latitude"; "longitude";
          "distance_km" ] ] /\
  map (fun ev => map (fun k => py_get ev k PNone) [ "name"; "date"; "venue"; "link" ])
    (eventos (L := python) tijuana [ listing (PFloat 32.53) (PFloat (-117.02)) ])
    = [ [ Some PNone; Some PNone; Some PNone; Some PNone ] ].
Proof. split; vm_compute; reflexivity. Qed.

(** The keys of the record of the sample listing. *)
Lemma evento_fields_witness :
  In near_event
    (eventos (L := python) tijuana [ listing (PFloat 32.53) (PFloat (-117.02)) ]) /\
  keys near_event = [ "nombre"; "fecha"; "lugar"; "enlace"; "latitude"; "longitude";
                      "distance_km" ].
Proof.
  assert (H : In near_event
                (eventos (L := python) tijuana [ listing (PFloat 32.53) (PFloat (-117.02)) ])).
  { vm_compute. left. reflexivity. }
  split; [ exact H | ].
  exact (proj1 (evento_fields (L := python) tijuana
                  [ listing (PFloat 32.53) (PFloat (-117.02)) ] near_event H)).
Defined.

(** C6: without a time tag the title is the date. A short title gives a
    date of fewer than 10 characters, a long one its first 10 characters;
    neither is of the form YYYY-MM-DD. *)
Lemma title_is_taken_as_date :
  map (fun ev => py_get ev "fecha" PNone)
    (eventos (L := python) tijuana
       [ bare_listing "Tonight" (PFloat 32.5) (PFloat (-117));
         bare_listing "Saturday 14 June 2025" (PFloat 32.5) (PFloat (-117)) ])
    = [ Some (PStr "Tonight"); Some (PStr "Saturday 1") ] /\
  String.length "Tonight" = 7 /\
  is_iso_date "Tonight" = false /\
  is_iso_date "Saturday 1" = false /\
  is_iso_date "2025-06-14" = true.
Proof. repeat split; vm_compute; reflexivity. Qed.

(** The datetime attribute of the sample listing, cut to the date. *)
Lemma fecha_truncated_witness :
  In near_event
    (eventos (L := python) tijuana [ listing (PFloat 32.53) (PFloat (-117.02)) ]) /\
  exists li,
    In li [ listing (PFloat 32.53) (PFloat (-117.02)) ] /\
    py_get near_event "fecha" PNone = Some (PStr (fecha_of (L := python) li)) /\
    fecha_raw (L := python) li = "2025-06-14T20:00:00-0700" /\
    fecha_of (L := python) li = "2025-06-14".
Proof.
  assert (H : In near_event
                (eventos (L := python) tijuana [ listing (PFloat 32.53) (PFloat (-117.02)) ])).
  { vm_compute. left. reflexivity. }
  split; [ exact H | ].
  destruct (fecha_truncated (L := python) tijuana _ near_event H) as [li [I [F _]]].
  exists li. split; [ exact I | split; [ exact F | ] ].
  destruct I as [<- | []]. split; vm_compute; reflexivity.
Defined.

(** Two arguments, and three with a latitude that is no number. *)
Lemma bad_arguments_witness :
  List.length [ "scrape_songkick.py"; "32.5"; "-117.0" ] < 4 /\
  py_float (Libs := python) (nth 2 [ "scrape_songkick.py"; "32.5"; "north"; "20" ] "") = None /\
  main (L := python) (calm sample_page) [ "scrape_songkick.py"; "32.5"; "-117.0" ]
    = {| trace := [ Stdout "[]" ]; browser := false |} /\
  main (L := python) (calm sample_page) [ "scrape_songkick.py"; "32.5"; "north"; "20" ]
    = {| trace := [ Stdout "[]" ]; browser := false |}.
Proof.
  assert (A : List.length [ "scrape_songkick.py"; "32.5"; "-117.0" ] < 4)
    by (simpl; lia).
  assert (B : py_float (Libs := python)
                (nth 2 [ "scrape_songkick.py"; "32.5"; "north"; "20" ] "") = None)
    by (vm_compute; reflexivity).
  split; [ exact A | split; [ exact B | split ] ].
  - exact (proj2 (bad_arguments_print_empty (L := python) (calm sample_page) _
                    (or_introl A))).
  - refine (proj2 (bad_arguments_print_empty (L := python) (calm sample_page) _
                     (or_intror (ex_intro _ 2 (conj _ B))))).
    lia.
Defined.

(** The sixth candidate is the first with a match in [testid_document]; the
    [li] that a later search would find is not taken. *)
Lemma cascade_first_match_witness :
  find_all (Libs := python) testid_document "div" [ ("data-testid", "event-item") ] <> [] /\
  eventos_encontrados (L := python) testid_document
    = find_all (Libs := python) testid_document "div" [ ("data-testid", "event-item") ] /\
  List.length (eventos_encontrados (L := python) testid_document) = 1.
Proof.
  assert (N : find_all (Libs := python) testid_document "div"
                [ ("data-testid", "event-item") ] <> []).
  { vm_compute. discriminate. }
  split; [ exact N | split; [ | vm_compute; reflexivity ] ].
  refine (proj1 (cascade_first_match (L := python) testid_document)
            [ ("li", [ ("class_", "event-listings-element") ]);
              ("li", [ ("class_", "event") ]);
              ("div", [ ("class_", "event-listings-element") ]);
              ("div", [ ("class_", "event") ]);
              ("article", [ ("class_", "event") ]) ]
            "div" [ ("data-testid", "event-item") ]
            [ ("li", [ ("class_", "event-item") ]) ] eq_refl _ N).
  intros c H. simpl in H.
  destruct H as [<- | [<- | [<- | [<- | [<- | []]]]]]; reflexivity.
Defined.

(** After a navigation timeout [browser.close()] has been called and the
    exit of the playwright block entered. *)
Lemma browser_closed_unless_cancelled_witness :
  browser (snd (scrape_songkick_events (L := python) navigation_timeout argv_tijuana initial))
    = true /\
  issued PlaywrightStop
    (snd (scrape_songkick_events (L := python) navigation_timeout argv_tijuana initial)) /\
  issued BrowserClose
    (snd (scrape_songkick_events (L := python) navigation_timeout argv_tijuana initial)).
Proof.
  assert (H : browser (snd (scrape_songkick_events (L := python) navigation_timeout
                              argv_tijuana initial)) = true)
    by (vm_compute; reflexivity).
  destruct (browser_closed_unless_cancelled (L := python) navigation_timeout argv_tijuana H)
    as [S C].
  split; [ exact H | split; [ exact S | ] ].
  apply C. vm_compute. discriminate.
Defined.

(** C9: a path that leaves the browser open. [browser.new_page()] raises
    at line 155, after the browser has been launched, and the 120 s run
    out while the [async with] block is being left. The cancellation
    replaces the exception and passes the [except Exception] of line 287,
    so that lines 289-293 do not run: the run ends without a call of
    [browser.close()], and the exit of the block, the only other call that
    shuts the browser down, is the call that was cancelled. *)
Lemma browser_left_open_by_cancelled_exit :
  trace (main (L := python) exit_cancelled argv_tijuana)
    = [ EnsureBrowsers; PlaywrightStart; Launch 0; NewPage; PlaywrightStop;
        Stdout "[]" ] /\
  browser (main (L := python) exit_cancelled argv_tijuana) = true /\
  count is_close (trace (main (L := python) exit_cancelled argv_tijuana)) = 0 /\
  new_page exit_cancelled = Failed /\
  playwright_stop exit_cancelled = Cancelled /\
  fst (scrape_songkick_events (L := python) exit_cancelled argv_tijuana initial)
    = Raise CancelledError.
Proof. repeat split; vm_compute; reflexivity. Qed.

(** When the 120 s run out during [page.goto], [browser.close()] is not
    called either; the exit of the [async with] block is entered. *)
Example cancelled_navigation_is_not_closed :
  browser (main (L := python) cancelled_navigation argv_tijuana) = true /\
  count is_close (trace (main (L := python) cancelled_navigation argv_tijuana)) = 0 /\
  existsb (fun ev => match ev with PlaywrightStop => true | _ => false end)
    (trace (main (L := python) cancelled_navigation argv_tijuana)) = true /\
  stdout (trace (main (L := python) cancelled_navigation argv_tijuana)) = [ "[]" ].
Proof. repeat split; vm_compute; reflexivity. Qed.

(** The query (0.0, 2.3, 10). *)
Lemma zero_coordinate_witness :
  PrimFloat.eqb (hotel_lat null_island) 0 = true /\
  in_mexico null_island = false /\
  resolve_url (L := python) null_island = URL_TIJUANA.
Proof.
  assert (H : PrimFloat.eqb (hotel_lat null_island) 0 = true) by reflexivity.
  destruct (zero_coordinate_falls_back (L := python) null_island (or_introl H)) as [A [B _]].
  split; [ exact H | split; [ exact A | exact B ] ].
Defined.

(** No launch configuration answers: the three are tried in order, the
    [async with] block is left, and [[]] is printed once. *)
Lemma no_browser_no_page_witness :
  trace (main (L := python) no_display argv_tijuana)
    = [ EnsureBrowsers; PlaywrightStart; Launch 0; Launch 1; Launch 2; PlaywrightStop;
        Stdout "[]" ] /\
  stdout (trace (main (L := python) no_display argv_tijuana)) = [ "[]" ] /\
  browser (main (L := python) no_display argv_tijuana) = false /\
  forallb (fun ev => negb (uses_browser ev))
    (trace (main (L := python) no_display argv_tijuana)) = true.
Proof.
  split; [ vm_compute; reflexivity | ].
  apply (no_browser_no_page (L := python) no_display argv_tijuana).
  right. intros i _. simpl. discriminate.
Defined.

(** The sample page after two missed launches and five missed selector
    waits: its near event is printed, and every other awaited call has
    completed. *)
Lemma events_need_every_call_witness :
  stdout (trace (main (L := python) (slow_start sample_page) argv_tijuana))
    = [ Reference.dumps (PList [ near_event ]) ] /\
  exists q first html s,
    parse_args (L := python) argv_tijuana = Some q /\
    playwright_start (slow_start sample_page) = Done /\
    (exists i,
       i < 3 /\ launch (slow_start sample_page) i = Done /\
       forall j, j < i -> missed (launch (slow_start sample_page) j)) /\
    new_page (slow_start sample_page) = Done /\
    add_init_script (slow_start sample_page) = Done /\
    set_extra_http_headers (slow_start sample_page) = Done /\
    goto (slow_start sample_page) = Done /\
    sleep (slow_start sample_page) = Done /\
    content (slow_start sample_page) 0 = (Done, first) /\
    1000 <= String.length first /\
    bloqueada first = false /\
    content (slow_start sample_page) 1 = (Done, html) /\
    close (slow_start sample_page) 0 = Done /\
    playwright_stop (slow_start sample_page) = Done /\
    BeautifulSoup (Libs := python) html = Some s /\
    stdout (trace (main (L := python) (slow_start sample_page) argv_tijuana))
      = [ json_output (L := python)
            (eventos (L := python) q (eventos_encontrados (L := python) s)) ].
Proof.
  split; [ vm_compute; reflexivity | ].
  apply (events_need_every_call (L := python) (slow_start sample_page) argv_tijuana).
  vm_compute. discriminate.
Defined.

(** A page of 1400 characters that says Access Denied. *)
Lemma rejected_page_prints_empty_witness :
  Nat.ltb (String.length blocked_page) 1000 = false /\
  bloqueada blocked_page = true /\
  (stdout (trace (main (L := python) (calm blocked_page) argv_tijuana)) = [ "[]" ] \/
   stdout (trace (main (L := python) (calm blocked_page) argv_tijuana)) = [ "[]"; "[]" ]).
Proof.
  split; [ vm_compute; reflexivity | ].
  assert (B : bloqueada blocked_page = true) by (vm_compute; reflexivity).
  split; [ exact B | ].
  apply (rejected_page_prints_empty (L := python) (calm blocked_page) argv_tijuana).
  right. exact B.
Defined.

(** The sample page, launched by the third configuration while no
    selector is found. *)
Lemma completed_run_prints_events_witness :
  stdout (trace (main (L := python) (slow_start sample_page) argv_tijuana))
    = [ json_output (L := python)
          (eventos (L := python) tijuana
             (eventos_encontrados (L := python) (Reference.parse_html sample_page))) ] /\
  count is_close (trace (main (L := python) (slow_start sample_page) argv_tijuana)) = 1 /\
  browser (main (L := python) (slow_start sample_page) argv_tijuana) = true.
Proof.
  apply (completed_run_prints_events (L := python) (slow_start sample_page) argv_tijuana
           tijuana sample_page sample_page (Reference.parse_html sample_page)).
  - vm_compute. reflexivity.
  - reflexivity.
  - exists 2. split; [ lia | split; [ reflexivity | ] ].
    intros j J. destruct j as [ | [ | j]];
      [ left; reflexivity | right; reflexivity | lia ].
  - reflexivity.
  - reflexivity.
  - reflexivity.
  - reflexivity.
  - reflexivity.
  - intros selector _. simpl. discriminate.
  - reflexivity.
  - apply Nat.leb_le. vm_compute. reflexivity.
  - vm_compute. reflexivity.
  - reflexivity.
  - reflexivity.
  - reflexivity.
  - reflexivity.
Defined.

(** The 120 s run out during [page.goto]; the clean-up completes. *)
Lemma one_line_when_cleanup_completes_witness :
  stdout (trace (main (L := python) cancelled_navigation argv_tijuana)) = [ "[]" ] /\
  exists line,
    stdout (trace (main (L := python) cancelled_navigation argv_tijuana)) = [ line ].
Proof.
  split; [ vm_compute; reflexivity | ].
  apply (one_line_when_cleanup_completes (L := python) cancelled_navigation argv_tijuana).
  - reflexivity.
  - intros k. reflexivity.
Defined.

(** The payload of the sample listing. *)
Lemma coordinates_need_location_geo_witness :
  geo_of sample_payload = Some (PFloat 32.53, PFloat (-117.02)) /\
  exists entries location geo,
    (sample_payload = PDict entries \/
     exists more, sample_payload = PList (PDict entries :: more)) /\
    lookup "location" entries = Some (PDict location) /\
    lookup "geo" location = Some (PDict geo) /\
    lookup "latitude" geo = Some (PFloat 32.53) /\
    lookup "longitude" geo = Some (PFloat (-117.02)).
Proof.
  assert (H : geo_of sample_payload = Some (PFloat 32.53, PFloat (-117.02)))
    by reflexivity.
  split; [ exact H | ].
  apply (proj1 (coordinates_need_location_geo sample_payload (PFloat 32.53)
                  (PFloat (-117.02)) ltac:(discriminate) ltac:(discriminate))).
  exact H.
Defined.

(** The calls of the run on the sample page. *)
Lemma run_issues_scripted_calls_witness :
  parse_args (L := python) argv_tijuana = Some tijuana /\
  Forall (scripted (L := python) tijuana)
    (trace (main (L := python) (slow_start sample_page) argv_tijuana)).
Proof.
  assert (A : parse_args (L := python) argv_tijuana = Some tijuana)
    by (vm_compute; reflexivity).
  split; [ exact A | ].
  exact (run_issues_scripted_calls (L := python) (slow_start sample_page) argv_tijuana
           tijuana A).
Defined.
